(** * Notion blocks to Markdown and MDX: a shallow embedding

    The development follows [src/models/pageblocks.py] (the block model, the
    rich-text formatter, the two single-block renderers and the two document
    assemblers) and [src/utils/notion.py] (the paginated block fetch).

    Python [str] values are Rocq [string]s (byte strings: every operation the
    renderers use is a concatenation, a split on the newline byte or an
    emptiness test, which agree on bytes and on code points).  Python [int]
    is [Z].  Optional fields are [option]s. *)

From Stdlib Require Import String Ascii List ZArith Lia Bool DecimalString.
Import ListNotations.
Local Open Scope string_scope.
Local Open Scope Z_scope.

(** ** Characters and small string helpers *)

(** The double quote and the newline, written by code. *)
Definition dq : string := String (ascii_of_nat 34) EmptyString.
Definition nl : string := String (ascii_of_nat 10) EmptyString.
Definition nl_char : ascii := ascii_of_nat 10.

(** Python truthiness of a [str]: the empty string is falsy. *)
Definition truthy (s : string) : bool :=
  match s with
  | EmptyString => false
  | String _ _ => true
  end.

(** Python truthiness of a [list]. *)
Definition truthy_list {A : Type} (l : list A) : bool :=
  match l with
  | [] => false
  | _ :: _ => true
  end.

(** [s * n] on strings; a negative [n] gives the empty string. *)
Fixpoint repeat_string (s : string) (n : nat) : string :=
  match n with
  | O => EmptyString
  | S n' => s ++ repeat_string s n'
  end.

Definition str_mul (s : string) (n : Z) : string := repeat_string s (Z.to_nat n).

(** [f"{n}"] for an [int]: decimal, a minus sign for negatives. *)
Definition str_of_int (n : Z) : string := NilZero.string_of_int (Z.to_int n).

(** ["".join(l)] *)
Fixpoint join_empty (l : list string) : string :=
  match l with
  | [] => EmptyString
  | x :: l' => x ++ join_empty l'
  end.

(** [sep.join(l)] *)
Fixpoint join (sep : string) (l : list string) : string :=
  match l with
  | [] => EmptyString
  | [x] => x
  | x :: l' => x ++ sep ++ join sep l'
  end.

(** [s.split("\n")]: the pieces between newlines; never the empty list. *)
Fixpoint split_nl (s : string) : list string :=
  match s with
  | EmptyString => [EmptyString]
  | String c s' =>
      if Ascii.eqb c nl_char then EmptyString :: split_nl s'
      else match split_nl s' with
           | [] => [String c EmptyString]
           | l :: ls => String c l :: ls
           end
  end.

(** ** Enumerations *)

Inductive NotionColor : Type :=
| DEFAULT | GRAY | BROWN | ORANGE | YELLOW | GREEN | BLUE | PURPLE | PINK | RED
| GRAY_BACKGROUND | BROWN_BACKGROUND | ORANGE_BACKGROUND | YELLOW_BACKGROUND
| GREEN_BACKGROUND | BLUE_BACKGROUND | PURPLE_BACKGROUND | PINK_BACKGROUND
| RED_BACKGROUND.

(** [NotionColor.value] *)
Definition value (c : NotionColor) : string :=
  match c with
  | DEFAULT => "default"
  | GRAY => "gray"
  | BROWN => "brown"
  | ORANGE => "orange"
  | YELLOW => "yellow"
  | GREEN => "green"
  | BLUE => "blue"
  | PURPLE => "purple"
  | PINK => "pink"
  | RED => "red"
  | GRAY_BACKGROUND => "gray_background"
  | BROWN_BACKGROUND => "brown_background"
  | ORANGE_BACKGROUND => "orange_background"
  | YELLOW_BACKGROUND => "yellow_background"
  | GREEN_BACKGROUND => "green_background"
  | BLUE_BACKGROUND => "blue_background"
  | PURPLE_BACKGROUND => "purple_background"
  | PINK_BACKGROUND => "pink_background"
  | RED_BACKGROUND => "red_background"
  end.

(** ** Shared models

    Only the fields some modelled function reads are kept; the comment of
    each record names the ones left out. *)

Record Annotations : Type := mkAnnotations {
  bold : bool;
  italic : bool;
  strikethrough : bool;
  underline : bool;
  code : bool;
  ann_color : NotionColor
}.

(** [Annotations()] with every default. *)
Definition default_annotations : Annotations :=
  mkAnnotations false false false false false DEFAULT.

(** [RichText]; [type], [text], [mention] and [equation] are read by no
    renderer. *)
Record RichText : Type := mkRichText {
  annotations : Annotations;
  plain_text : string;
  href : option string
}.

Record ExternalFile : Type := mkExternalFile { url : string }.

(** [FileObject]; its [type] literal is read by no renderer. *)
Record FileObject : Type := mkFileObject {
  external : option ExternalFile;
  caption : list RichText;
  name : option string
}.

(** [Icon = EmojiIcon | FileIcon] *)
Inductive Icon : Type :=
| EmojiIcon (emoji : string)
| FileIcon (icon_external : option ExternalFile).

(** ** Block contents *)

(** [RichTextBlockContent] and its subclasses without fields of their own
    (paragraph, bulleted and numbered list items, toggle, quote); the
    [children] slot is read by no renderer. *)
Record RichTextBlockContent : Type := mkRichTextBlockContent {
  rich_text : list RichText;
  color : NotionColor
}.

Record HeadingContent : Type := mkHeadingContent {
  heading_rich_text : list RichText;
  heading_color : NotionColor;
  is_toggleable : bool
}.

Record ToDoContent : Type := mkToDoContent {
  to_do_rich_text : list RichText;
  to_do_color : NotionColor;
  checked : bool
}.

Record CalloutContent : Type := mkCalloutContent {
  callout_rich_text : list RichText;
  icon : option Icon;
  callout_color : NotionColor
}.

Record CodeContent : Type := mkCodeContent {
  code_rich_text : list RichText;
  code_caption : list RichText;
  language : string
}.

Record BookmarkContent : Type := mkBookmarkContent {
  bookmark_url : string;
  bookmark_caption : list RichText
}.

Record TableContent : Type := mkTableContent {
  table_width : Z;
  has_column_header : bool;
  has_row_header : bool
}.

(** ** The discriminated union of blocks

    One constructor per class of the [Block] union, in the order of the
    source.  The [BlockBase] metadata (id, parent, timestamps, authors,
    flags) is read by no modelled function and is left out. *)
Inductive Block : Type :=
| ParagraphBlock (paragraph : RichTextBlockContent)
| Heading1Block (heading_1 : HeadingContent)
| Heading2Block (heading_2 : HeadingContent)
| Heading3Block (heading_3 : HeadingContent)
| BulletedListItemBlock (bulleted_list_item : RichTextBlockContent)
| NumberedListItemBlock (numbered_list_item : RichTextBlockContent)
| ToDoBlock (to_do : ToDoContent)
| ToggleBlock (toggle : RichTextBlockContent)
| CodeBlock (code_content : CodeContent)
| ChildPageBlock (child_page_title : string)
| ChildDatabaseBlock (child_database_title : string)
| EmbedBlock (embed_url : string)
| ImageBlock (image : FileObject)
| VideoBlock (video : FileObject)
| FileBlock (file : FileObject)
| PdfBlock (pdf : FileObject)
| AudioBlock (audio : FileObject)
| BookmarkBlock (bookmark : BookmarkContent)
| CalloutBlock (callout : CalloutContent)
| QuoteBlock (quote : RichTextBlockContent)
| EquationBlock (expression : string)
| DividerBlock
| TableOfContentsBlock (table_of_contents_color : NotionColor)
| BreadcrumbBlock
| ColumnListBlock
| ColumnBlock
| LinkPreviewBlock (link_preview_url : string)
| TableBlock (table : TableContent)
| TableRowBlock (cells : list (list RichText))
| UnsupportedBlock.

(** The [type] literal of each class. *)
Definition type (b : Block) : string :=
  match b with
  | ParagraphBlock _ => "paragraph"
  | Heading1Block _ => "heading_1"
  | Heading2Block _ => "heading_2"
  | Heading3Block _ => "heading_3"
  | BulletedListItemBlock _ => "bulleted_list_item"
  | NumberedListItemBlock _ => "numbered_list_item"
  | ToDoBlock _ => "to_do"
  | ToggleBlock _ => "toggle"
  | CodeBlock _ => "code"
  | ChildPageBlock _ => "child_page"
  | ChildDatabaseBlock _ => "child_database"
  | EmbedBlock _ => "embed"
  | ImageBlock _ => "image"
  | VideoBlock _ => "video"
  | FileBlock _ => "file"
  | PdfBlock _ => "pdf"
  | AudioBlock _ => "audio"
  | BookmarkBlock _ => "bookmark"
  | CalloutBlock _ => "callout"
  | QuoteBlock _ => "quote"
  | EquationBlock _ => "equation"
  | DividerBlock => "divider"
  | TableOfContentsBlock _ => "table_of_contents"
  | BreadcrumbBlock => "breadcrumb"
  | ColumnListBlock => "column_list"
  | ColumnBlock => "column"
  | LinkPreviewBlock _ => "link_preview"
  | TableBlock _ => "table"
  | TableRowBlock _ => "table_row"
  | UnsupportedBlock => "unsupported"
  end.

(** [PageBlocksResponse]; the constant [object] and [type] literals and the
    [block] dictionary are left out. *)
Record PageBlocksResponse : Type := mkPageBlocksResponse {
  results : list Block;
  next_cursor : option string;
  has_more : bool;
  request_id : option string
}.

(** ** Utility methods *)

(** [PageBlocksResponse._extract_plain_text] *)
Definition _extract_plain_text (rich_text_list : list RichText) : string :=
  join_empty (map plain_text rich_text_list).

(** ** Markdown conversion *)

(** The body of the loop of [_rich_text_to_markdown]: one span. *)
Definition format_span (rt : RichText) : string :=
  let text := plain_text rt in
  let text := if code (annotations rt) then "`" ++ text ++ "`" else text in
  let text := if bold (annotations rt) then "**" ++ text ++ "**" else text in
  let text := if italic (annotations rt) then "*" ++ text ++ "*" else text in
  let text := if strikethrough (annotations rt) then "~~" ++ text ++ "~~" else text in
  match href rt with
  | Some h => if truthy h then "[" ++ text ++ "](" ++ h ++ ")" else text
  | None => text
  end.

(** [PageBlocksResponse._rich_text_to_markdown] *)
Definition _rich_text_to_markdown (rich_text_list : list RichText) : string :=
  join_empty (map format_span rich_text_list).

(** [url = ""; if f.external: url = f.external.url] *)
Definition external_url (f : FileObject) : string :=
  match external f with
  | Some e => url e
  | None => EmptyString
  end.

(** [x or d] on an optional string. *)
Definition or_default (x : option string) (d : string) : string :=
  match x with
  | Some s => if truthy s then s else d
  | None => d
  end.

(** ["\n".join(f"> {line}" for line in text.split("\n"))] *)
Definition quote_lines (text : string) : string :=
  join nl (map (fun line => "> " ++ line) (split_nl text)).

(** [PageBlocksResponse._block_to_markdown] *)
Definition _block_to_markdown (block : Block) (indent : Z) (number : option Z) : string :=
  let indent_str := str_mul "  " indent in
  match block with
  | ParagraphBlock paragraph =>
      let text := _rich_text_to_markdown (rich_text paragraph) in
      if truthy text then indent_str ++ text ++ nl else nl
  | Heading1Block heading_1 =>
      let text := _rich_text_to_markdown (heading_rich_text heading_1) in
      "# " ++ text ++ nl
  | Heading2Block heading_2 =>
      let text := _rich_text_to_markdown (heading_rich_text heading_2) in
      "## " ++ text ++ nl
  | Heading3Block heading_3 =>
      let text := _rich_text_to_markdown (heading_rich_text heading_3) in
      "### " ++ text ++ nl
  | BulletedListItemBlock bulleted_list_item =>
      let text := _rich_text_to_markdown (rich_text bulleted_list_item) in
      indent_str ++ "- " ++ text ++ nl
  | NumberedListItemBlock numbered_list_item =>
      let text := _rich_text_to_markdown (rich_text numbered_list_item) in
      let num := match number with Some n => n | None => 1 end in
      indent_str ++ str_of_int num ++ ". " ++ text ++ nl
  | ToDoBlock to_do =>
      let text := _rich_text_to_markdown (to_do_rich_text to_do) in
      let checkbox := if checked to_do then "[x]" else "[ ]" in
      indent_str ++ "- " ++ checkbox ++ " " ++ text ++ nl
  | ToggleBlock toggle =>
      let text := _rich_text_to_markdown (rich_text toggle) in
      indent_str ++ "<details>" ++ nl ++ indent_str ++ "<summary>" ++ text
        ++ "</summary>" ++ nl ++ indent_str ++ "</details>" ++ nl
  | CodeBlock c =>
      let text := _extract_plain_text (code_rich_text c) in
      let lang := language c in
      "```" ++ lang ++ nl ++ text ++ nl ++ "```" ++ nl
  | QuoteBlock quote =>
      let text := _rich_text_to_markdown (rich_text quote) in
      quote_lines text ++ nl
  | CalloutBlock callout =>
      let text := _rich_text_to_markdown (callout_rich_text callout) in
      let icon_str :=
        match icon callout with
        | Some (EmojiIcon emoji) => emoji ++ " "
        | _ => EmptyString
        end in
      "> " ++ icon_str ++ text ++ nl
  | DividerBlock => "---" ++ nl
  | EquationBlock expr => "$$" ++ nl ++ expr ++ nl ++ "$$" ++ nl
  | ImageBlock image =>
      let url := external_url image in
      let caption :=
        if truthy_list (caption image)
        then _rich_text_to_markdown (caption image) else "image" in
      "![" ++ caption ++ "](" ++ url ++ ")" ++ nl
  | VideoBlock video => "[Video](" ++ external_url video ++ ")" ++ nl
  | AudioBlock audio => "[Audio](" ++ external_url audio ++ ")" ++ nl
  | FileBlock file =>
      let url := external_url file in
      let name := or_default (name file) "file" in
      "[" ++ name ++ "](" ++ url ++ ")" ++ nl
  | PdfBlock pdf => "[PDF](" ++ external_url pdf ++ ")" ++ nl
  | BookmarkBlock bookmark =>
      let url := bookmark_url bookmark in
      let caption :=
        if truthy_list (bookmark_caption bookmark)
        then _rich_text_to_markdown (bookmark_caption bookmark) else url in
      "[" ++ caption ++ "](" ++ url ++ ")" ++ nl
  | EmbedBlock u => "[Embed](" ++ u ++ ")" ++ nl
  | LinkPreviewBlock u => "[Link](" ++ u ++ ")" ++ nl
  | ChildPageBlock title => "📄 [" ++ title ++ "]()" ++ nl
  | ChildDatabaseBlock title => "🗄️ [" ++ title ++ "]()" ++ nl
  | TableOfContentsBlock _ => "[TOC]" ++ nl
  | BreadcrumbBlock => EmptyString
  | ColumnListBlock | ColumnBlock => EmptyString
  | TableBlock _ => EmptyString
  | TableRowBlock cells =>
      let cells := map _rich_text_to_markdown cells in
      "| " ++ join " | " cells ++ " |" ++ nl
  | UnsupportedBlock => EmptyString
  end.

(** The state of the loop of [to_markdown] and of [to_mdx]: the output
    buffer, the numbered-list counter and the type of the previous block. *)
Record LoopState : Type := mkLoopState {
  lines : list string;
  numbered_list_counter : Z;
  prev_type : option string
}.

(** The values the three locals have before the loop. *)
Definition loop_init : LoopState := mkLoopState [] 0 None.

Definition is_numbered_type (t : string) : bool := String.eqb t "numbered_list_item".

Definition prev_is_numbered (p : option string) : bool :=
  match p with
  | Some t => is_numbered_type t
  | None => false
  end.

(** One iteration of the loop, for the single-block renderer [render].  The
    statement on spacing that closes the body of [to_markdown] has [pass] in
    both of its branches and is left out. *)
Definition loop_step (render : Block -> Z -> option Z -> string)
    (st : LoopState) (block : Block) : LoopState :=
  let block_type := type block in
  let counter :=
    if negb (is_numbered_type block_type) && prev_is_numbered (prev_type st)
    then 0 else numbered_list_counter st in
  let counter' := if is_numbered_type block_type then counter + 1 else counter in
  let md :=
    if is_numbered_type block_type
    then render block 0 (Some counter')
    else render block 0 None in
  mkLoopState (if truthy md then lines st ++ [md] else lines st)
              counter' (Some block_type).

(** The loop over [self.results] followed by ["".join(lines)]. *)
Definition assemble (render : Block -> Z -> option Z -> string)
    (blocks : list Block) : string :=
  join_empty (lines (fold_left (loop_step render) blocks loop_init)).

(** [PageBlocksResponse.to_markdown] *)
Definition to_markdown (self : PageBlocksResponse) : string :=
  assemble _block_to_markdown (results self).

(** ** MDX conversion *)

(** [PageBlocksResponse._wrap_with_color] *)
Definition _wrap_with_color (text : string) (color : string) : string :=
  if String.eqb color "default" || negb (truthy color) then text
  else "<Span color=" ++ dq ++ color ++ dq ++ ">" ++ text ++ "</Span>".

(** [PageBlocksResponse._block_to_mdx] *)
Definition _block_to_mdx (block : Block) (indent : Z) (number : option Z) : string :=
  let indent_str := str_mul "  " indent in
  match block with
  | ParagraphBlock paragraph =>
      let text := _rich_text_to_markdown (rich_text paragraph) in
      let color := value (color paragraph) in
      if negb (truthy text) then nl
      else
        let text := _wrap_with_color text color in
        indent_str ++ text ++ nl
  | Heading1Block heading_1 =>
      let text := _rich_text_to_markdown (heading_rich_text heading_1) in
      let text := _wrap_with_color text (value (heading_color heading_1)) in
      "# " ++ text ++ nl
  | Heading2Block heading_2 =>
      let text := _rich_text_to_markdown (heading_rich_text heading_2) in
      let text := _wrap_with_color text (value (heading_color heading_2)) in
      "## " ++ text ++ nl
  | Heading3Block heading_3 =>
      let text := _rich_text_to_markdown (heading_rich_text heading_3) in
      let text := _wrap_with_color text (value (heading_color heading_3)) in
      "### " ++ text ++ nl
  | BulletedListItemBlock bulleted_list_item =>
      let text := _rich_text_to_markdown (rich_text bulleted_list_item) in
      let text := _wrap_with_color text (value (color bulleted_list_item)) in
      indent_str ++ "- " ++ text ++ nl
  | NumberedListItemBlock numbered_list_item =>
      let text := _rich_text_to_markdown (rich_text numbered_list_item) in
      let text := _wrap_with_color text (value (color numbered_list_item)) in
      let num := match number with Some n => n | None => 1 end in
      indent_str ++ str_of_int num ++ ". " ++ text ++ nl
  | ToDoBlock to_do =>
      let text := _rich_text_to_markdown (to_do_rich_text to_do) in
      let text := _wrap_with_color text (value (to_do_color to_do)) in
      let checkbox := if checked to_do then "[x]" else "[ ]" in
      indent_str ++ "- " ++ checkbox ++ " " ++ text ++ nl
  | ToggleBlock toggle =>
      let text := _rich_text_to_markdown (rich_text toggle) in
      let color := value (color toggle) in
      "<Accordion title=" ++ dq ++ text ++ dq ++ " color=" ++ dq ++ color ++ dq
        ++ ">" ++ nl ++ "</Accordion>" ++ nl
  | CodeBlock c =>
      let text := _extract_plain_text (code_rich_text c) in
      let lang := language c in
      "```" ++ lang ++ nl ++ text ++ nl ++ "```" ++ nl
  | QuoteBlock quote =>
      let text := _rich_text_to_markdown (rich_text quote) in
      let color := value (color quote) in
      if negb (String.eqb color "default")
      then "<Quote color=" ++ dq ++ color ++ dq ++ ">" ++ text ++ "</Quote>" ++ nl
      else quote_lines text ++ nl
  | CalloutBlock callout =>
      let text := _rich_text_to_markdown (callout_rich_text callout) in
      let color := value (callout_color callout) in
      let icon_str :=
        match icon callout with
        | Some (EmojiIcon emoji) => emoji
        | _ => EmptyString
        end in
      "<Callout icon=" ++ dq ++ icon_str ++ dq ++ " color=" ++ dq ++ color ++ dq
        ++ ">" ++ nl ++ "  " ++ text ++ nl ++ "</Callout>" ++ nl
  | DividerBlock => "---" ++ nl
  | EquationBlock expr => "<Math>" ++ expr ++ "</Math>" ++ nl
  | ImageBlock image =>
      let url := external_url image in
      let caption :=
        if truthy_list (caption image)
        then _rich_text_to_markdown (caption image) else EmptyString in
      if truthy caption
      then "<Image src=" ++ dq ++ url ++ dq ++ " alt=" ++ dq ++ caption ++ dq
             ++ " />" ++ nl
      else "<Image src=" ++ dq ++ url ++ dq ++ " />" ++ nl
  | VideoBlock video => "<Video src=" ++ dq ++ external_url video ++ dq ++ " />" ++ nl
  | AudioBlock audio => "<Audio src=" ++ dq ++ external_url audio ++ dq ++ " />" ++ nl
  | FileBlock file =>
      let url := external_url file in
      let name := or_default (name file) "file" in
      "<FileDownload href=" ++ dq ++ url ++ dq ++ " name=" ++ dq ++ name ++ dq
        ++ " />" ++ nl
  | PdfBlock pdf => "<PDF src=" ++ dq ++ external_url pdf ++ dq ++ " />" ++ nl
  | BookmarkBlock bookmark =>
      let url := bookmark_url bookmark in
      let caption :=
        if truthy_list (bookmark_caption bookmark)
        then _rich_text_to_markdown (bookmark_caption bookmark) else url in
      "<Bookmark url=" ++ dq ++ url ++ dq ++ " title=" ++ dq ++ caption ++ dq
        ++ " />" ++ nl
  | EmbedBlock u => "<Embed url=" ++ dq ++ u ++ dq ++ " />" ++ nl
  | LinkPreviewBlock u => "<LinkPreview url=" ++ dq ++ u ++ dq ++ " />" ++ nl
  | ChildPageBlock title => "<ChildPage title=" ++ dq ++ title ++ dq ++ " />" ++ nl
  | ChildDatabaseBlock title =>
      "<ChildDatabase title=" ++ dq ++ title ++ dq ++ " />" ++ nl
  | TableOfContentsBlock c =>
      let color := value c in
      if negb (String.eqb color "default")
      then "<TableOfContents color=" ++ dq ++ color ++ dq ++ " />" ++ nl
      else "<TableOfContents />" ++ nl
  | BreadcrumbBlock => EmptyString
  | ColumnListBlock | ColumnBlock => EmptyString
  | TableBlock _ => EmptyString
  | TableRowBlock cells =>
      let cells := map _rich_text_to_markdown cells in
      "| " ++ join " | " cells ++ " |" ++ nl
  | UnsupportedBlock => EmptyString
  end.

(** [PageBlocksResponse.to_mdx] *)
Definition to_mdx (self : PageBlocksResponse) : string :=
  assemble _block_to_mdx (results self).

(** A response holding [blocks] and nothing else. *)
Definition response_of (blocks : list Block) : PageBlocksResponse :=
  mkPageBlocksResponse blocks None false None.

(** A span of plain text, every annotation off and no link. *)
Definition plain (s : string) : RichText := mkRichText default_annotations s None.

(** ** Validation of raw blocks: the discriminated union

    [Block] is [Annotated[Union[...], Field(discriminator="type")]]: the
    validator reads the [type] key of the raw object, selects the class
    whose [Literal] it equals and runs that class's validator.  A tag that
    is the literal of no class, whatever its JSON type, is an invalid-tag
    error of the union; a missing key is a tag-not-found error. *)

#[local] Unset Elimination Schemes.
Inductive json : Type :=
| JNull
| JBool (b : bool)
| JNum (z : Z)
| JStr (s : string)
| JArr (items : list json)
| JObj (fields : list (string * json)).
#[local] Set Elimination Schemes.

(** [d.get(key)] on the members of an object, in the order of the text:
    the dictionary that [response.json()] builds keeps the last value of
    a repeated key. *)
Fixpoint json_get (key : string) (fields : list (string * json)) : option json :=
  match fields with
  | [] => None
  | (k, v) :: rest =>
      match json_get key rest with
      | Some later => Some later
      | None => if String.eqb k key then Some v else None
      end
  end.

(** One error of a validation.  [union_tag_invalid] carries the offending
    tag (the message prints it); [class_error] stands for whatever the
    selected class reports about its fields. *)
Inductive ValidationError : Type :=
| model_type                         (* the input is not an object *)
| union_tag_not_found                (* the object has no [type] key *)
| union_tag_invalid (tag : json)     (* the tag is the literal of no class *)
| class_error (tag : string).        (* the selected class rejects a field *)

Inductive Result (A : Type) : Type :=
| Ok (a : A)
| Err (e : ValidationError).
Arguments Ok {A} a.
Arguments Err {A} e.

(** The literals of the thirty classes of the union, in source order. *)
Definition block_tags : list string :=
  [ "paragraph"; "heading_1"; "heading_2"; "heading_3"; "bulleted_list_item";
    "numbered_list_item"; "to_do"; "toggle"; "code"; "child_page";
    "child_database"; "embed"; "image"; "video"; "file"; "pdf"; "audio";
    "bookmark"; "callout"; "quote"; "equation"; "divider";
    "table_of_contents"; "breadcrumb"; "column_list"; "column";
    "link_preview"; "table"; "table_row"; "unsupported" ].

Definition is_block_tag (tag : string) : bool := existsb (String.eqb tag) block_tags.

(** The value under the [type] key of a raw block, when it has the key. *)
Definition discriminator (raw : json) : option json :=
  match raw with
  | JObj fields => json_get "type" fields
  | _ => None
  end.

(** The class literal a tag equals: only a string can equal one. *)
Definition tag_literal (tag : json) : option string :=
  match tag with
  | JStr s => if is_block_tag s then Some s else None
  | _ => None
  end.

(** The first stage of the union's validator: the class selected. *)
Definition select_class (raw : json) : Result string :=
  match raw with
  | JObj _ =>
      match discriminator raw with
      | Some tag =>
          match tag_literal tag with
          | Some literal => Ok literal
          | None => Err (union_tag_invalid tag)
          end
      | None => Err union_tag_not_found
      end
  | _ => Err model_type
  end.

(** The outcome of validating [results: list[Block]]: the blocks, or the
    errors of all the elements that fail, each with its index. *)
Inductive ListResult : Type :=
| ListOk (blocks : list Block)
| ListErr (errors : list (nat * ValidationError)).

Section Validation.

(** The validator of the class whose literal is the given tag (the field
    checks pydantic derives from the class declaration). *)
Variable validate_class : string -> json -> Result Block.

(** Validation of one element of [results: list[Block]]. *)
Definition validate_Block (raw : json) : Result Block :=
  match select_class raw with
  | Ok tag => validate_class tag raw
  | Err e => Err e
  end.

(** Every element is validated; the blocks that pass and the errors of
    those that fail, numbered from [index]. *)
Fixpoint validate_items (index : nat) (raws : list json)
    : list Block * list (nat * ValidationError) :=
  match raws with
  | [] => ([], [])
  | raw :: rest =>
      let (blocks, errors) := validate_items (S index) rest in
      match validate_Block raw with
      | Ok b => (b :: blocks, errors)
      | Err e => (blocks, (index, e) :: errors)
      end
  end.

(** Validation of [results: list[Block]]: it succeeds when no element
    fails, and otherwise reports the errors of all failing elements. *)
Definition validate_results (raws : list json) : ListResult :=
  let (blocks, errors) := validate_items O raws in
  match errors with
  | [] => ListOk blocks
  | _ :: _ => ListErr errors
  end.

(** Each class validator returns blocks of its own class. *)
Definition class_respecting : Prop :=
  forall tag raw b, validate_class tag raw = Ok b -> type b = tag.

End Validation.

(** A stand-in for the class validators, for examples: it knows the
    unsupported class, which declares no content, and checks no field. *)
Definition unsupported_only (tag : string) (raw : json) : Result Block :=
  if String.eqb tag "unsupported" then Ok UnsupportedBlock else Err (class_error tag).

(** ** Calls of the renderers in a memory

    The renderers as the method bodies run: in a memory that holds the
    response object [self] and the three locals of the loop, with whatever
    an earlier call left in them. *)






(** ** The block fetch of [utils/notion.py] *)

(** What a call can do: return, raise, or still be running when the fuel
    of the model is spent. *)
Inductive outcome (A : Type) : Type :=
| Returned (a : A)
| Raised
| OutOfFuel.
Arguments Returned {A} a.
Arguments Raised {A}.
Arguments OutOfFuel {A}.

Section Fetch.

(** The state of the remote service and of the connection. *)
Variable World : Type.

(** [requests.get(url, headers=..., params=...)], [raise_for_status] and
    [PageBlocksResponse.model_validate] on the body: the validated page,
    or [None] when any of them raises. *)
Variable http_get :
  string -> list (string * string) -> World -> option PageBlocksResponse * World.

(** [get_block_children] *)
Definition get_block_children (block_id : string) (cursor : option string)
    (w : World) : option PageBlocksResponse * World :=
  let url := "https://api.notion.com/v1/blocks/" ++ block_id ++ "/children" in
  let params :=
    match cursor with
    | Some c => if truthy c then [("start_cursor", c)] else []
    | None => []
    end in
  http_get url params w.

(** The [while True] loop of [fetch_all_blocks]; [fuel] bounds the number
    of requests. *)
Fixpoint fetch_loop (fuel : nat) (page_id : string) (cursor : option string)
    (first_response : option PageBlocksResponse) (all_results : list Block)
    (w : World) : outcome (option PageBlocksResponse * list Block) * World :=
  match fuel with
  | O => (OutOfFuel, w)
  | S fuel' =>
      match get_block_children page_id cursor w with
      | (None, w') => (Raised, w')
      | (Some response, w') =>
          let first_response :=
            match first_response with
            | None => Some response
            | Some _ => first_response
            end in
          let all_results := (all_results ++ results response)%list in
          if negb (has_more response)
          then (Returned (first_response, all_results), w')
          else fetch_loop fuel' page_id (next_cursor response)
                          first_response all_results w'
      end
  end.

(** [fetch_all_blocks] *)
Definition fetch_all_blocks (fuel : nat) (page_id : string) (w : World)
    : outcome (option PageBlocksResponse) * World :=
  match fetch_loop fuel page_id None None [] w with
  | (Returned (first_response, all_results), w') =>
      (Returned
         match first_response with
         | Some r => Some (mkPageBlocksResponse all_results None false (request_id r))
         | None => None
         end, w')
  | (Raised, w') => (Raised, w')
  | (OutOfFuel, w') => (OutOfFuel, w')
  end.

(** The pages a fetch receives: [pages_from w cursor pages w'] when the
    requests issued from cursor [cursor] in world [w] succeed one after
    the other, each page but the last announcing more, and leave the
    world at [w']. *)
Inductive pages_from (page_id : string)
    : World -> option string -> list PageBlocksResponse -> World -> Prop :=
| pages_last w cursor p w' :
    get_block_children page_id cursor w = (Some p, w') ->
    has_more p = false ->
    pages_from page_id w cursor [p] w'
| pages_more w cursor p w1 ps w' :
    get_block_children page_id cursor w = (Some p, w1) ->
    has_more p = true ->
    pages_from page_id w1 (next_cursor p) ps w' ->
    pages_from page_id w cursor (p :: ps) w'.

End Fetch.

(** A scripted service: the world is the list of the pages still to be
    served, whatever the request. *)
Definition scripted_get (u : string) (params : list (string * string))
    (w : list PageBlocksResponse) : option PageBlocksResponse * list PageBlocksResponse :=
  match w with
  | [] => (None, [])
  | p :: rest => (Some p, rest)
  end.

(** ** Definitions used to state the properties *)

(** [mark + t + mark] when the annotation is on. *)
Definition wrap_mark (on : bool) (mark t : string) : string :=
  if on then mark ++ t ++ mark else t.

(** [s.startswith(tok)] *)
Fixpoint starts_with (tok s : string) : bool :=
  match tok, s with
  | EmptyString, _ => true
  | String _ _, EmptyString => false
  | String a tok', String b s' => Ascii.eqb a b && starts_with tok' s'
  end.

(** The number of positions of [s] at which [tok] occurs. *)
Fixpoint occurrences (tok s : string) : nat :=
  match s with
  | EmptyString => O
  | String _ s' => ((if starts_with tok s then 1 else 0) + occurrences tok s')%nat
  end.

(** Whether the character occurs in the string. *)
Fixpoint mem_char (c : ascii) (s : string) : bool :=
  match s with
  | EmptyString => false
  | String a s' => Ascii.eqb a c || mem_char c s'
  end.

Definition is_default (c : NotionColor) : bool :=
  match c with
  | DEFAULT => true
  | _ => false
  end.

(** The span with its underline flag set to [u]. *)
Definition with_underline (u : bool) (rt : RichText) : RichText :=
  let a := annotations rt in
  mkRichText (mkAnnotations (bold a) (italic a) (strikethrough a) u (code a) (ann_color a))
             (plain_text rt) (href rt).

Definition is_numbered (b : Block) : bool := is_numbered_type (type b).

(** The run-counter rule of the specification (section 4.5): one counter,
    incremented and passed on for a numbered list item, reset to zero for
    any other block. *)
Fixpoint counters_spec (counter : Z) (blocks : list Block) : list (Block * option Z) :=
  match blocks with
  | [] => []
  | b :: rest =>
      if is_numbered b
      then (b, Some (counter + 1)) :: counters_spec (counter + 1) rest
      else (b, None) :: counters_spec 0 rest
  end.

(** The fragment of a block paired with the counter it is rendered with. *)
Definition fragment (render : Block -> Z -> option Z -> string)
    (bn : Block * option Z) : string :=
  render (fst bn) 0 (snd bn).

(** The document of the specification: the fragments of the blocks, each
    rendered with the counter of the rule, one after the other. *)
Definition document_spec (render : Block -> Z -> option Z -> string)
    (blocks : list Block) : string :=
  join_empty (map (fragment render) (counters_spec 0 blocks)).

(** Between two iterations of the loop the counter is zero unless the
    previous block was a numbered list item. *)
Definition loop_inv (st : LoopState) : Prop :=
  prev_is_numbered (prev_type st) = false -> numbered_list_counter st = 0.

(** The fragments of a run of numbered items that follows counter [c]. *)
Fixpoint run_fragments (render : Block -> Z -> option Z -> string)
    (c : Z) (items : list RichTextBlockContent) : string :=
  match items with
  | [] => EmptyString
  | i :: rest =>
      render (NumberedListItemBlock i) 0 (Some (c + 1))
        ++ run_fragments render (c + 1) rest
  end.

(** The counter the rule holds after [blocks], started at [counter]. *)
Fixpoint counter_after (counter : Z) (blocks : list Block) : Z :=
  match blocks with
  | [] => counter
  | b :: rest => counter_after (if is_numbered b then counter + 1 else 0) rest
  end.

(** Whether the sequence ends, or starts, with a numbered list item. *)
Definition ends_numbered (blocks : list Block) : bool :=
  match rev blocks with
  | [] => false
  | b :: _ => is_numbered b
  end.

Definition starts_numbered (blocks : list Block) : bool :=
  match blocks with
  | [] => false
  | b :: _ => is_numbered b
  end.

(** The lines of a run of numbered items numbered [n], [n + 1], ..., in
    Markdown and in MDX. *)
Fixpoint numbered_run_markdown (n : Z) (items : list RichTextBlockContent) : string :=
  match items with
  | [] => EmptyString
  | c :: rest =>
      str_of_int n ++ ". " ++ _rich_text_to_markdown (rich_text c) ++ nl
        ++ numbered_run_markdown (n + 1) rest
  end.

Fixpoint numbered_run_mdx (n : Z) (items : list RichTextBlockContent) : string :=
  match items with
  | [] => EmptyString
  | c :: rest =>
      str_of_int n ++ ". "
        ++ _wrap_with_color (_rich_text_to_markdown (rich_text c)) (value (color c)) ++ nl
        ++ numbered_run_mdx (n + 1) rest
  end.

(** ** Sample inputs *)

Definition item (s : string) : Block :=
  NumberedListItemBlock (mkRichTextBlockContent [plain s] DEFAULT).

Definition item_content (s : string) : RichTextBlockContent :=
  mkRichTextBlockContent [plain s] DEFAULT.

(** A paragraph, two numbered items, a divider, one numbered item. *)
Definition sample_document : list Block :=
  [ ParagraphBlock (mkRichTextBlockContent [plain "Hello"] DEFAULT);
    item "a"; item "b"; DividerBlock; item "c" ].

(** A raw block of a type the union has no class for. *)
Definition raw_synced_block : json :=
  JObj [ ("object", JStr "block"); ("id", JStr "b1");
         ("type", JStr "synced_block"); ("synced_block", JObj []) ].

(** The raw form of a block the remote service itself reports as
    unsupported. *)
Definition raw_unsupported_block : json :=
  JObj [ ("object", JStr "block"); ("id", JStr "b2");
         ("type", JStr "unsupported"); ("unsupported", JObj []) ].

(** A span whose link target is the empty string. *)
Definition span_empty_href : RichText :=
  mkRichText default_annotations "x" (Some EmptyString).

(** The span of the specification's example: bold and code, linked to u. *)
Definition span_bold_code_link : RichText :=
  mkRichText (mkAnnotations true false false false true DEFAULT) "x" (Some "u").

(** An image whose caption is one span of empty text. *)
Definition image_blank_caption : FileObject :=
  mkFileObject (Some (mkExternalFile "u")) [plain EmptyString] None.

Definition image_no_caption : FileObject :=
  mkFileObject (Some (mkExternalFile "u")) [] None.

Definition image_with_caption : FileObject :=
  mkFileObject (Some (mkExternalFile "u")) [plain "cat"] None.

(** Two pages of a paginated answer and the page that closes it. *)
Definition page_one : PageBlocksResponse :=
  mkPageBlocksResponse [item "a"; item "b"] (Some "cursor-1") true (Some "r1").

Definition page_two : PageBlocksResponse :=
  mkPageBlocksResponse [DividerBlock] None false (Some "r2").

(** ** Plain text of a document *)

(** [PageBlocksResponse._get_block_text]: the lookup of [block.type] in
    [content_map] is the match on the class; the classes without an entry
    give the empty string. *)
Definition _get_block_text (block : Block) : string :=
  match block with
  | ParagraphBlock c => _extract_plain_text (rich_text c)
  | Heading1Block h => _extract_plain_text (heading_rich_text h)
  | Heading2Block h => _extract_plain_text (heading_rich_text h)
  | Heading3Block h => _extract_plain_text (heading_rich_text h)
  | BulletedListItemBlock c => _extract_plain_text (rich_text c)
  | NumberedListItemBlock c => _extract_plain_text (rich_text c)
  | ToDoBlock t => _extract_plain_text (to_do_rich_text t)
  | ToggleBlock c => _extract_plain_text (rich_text c)
  | QuoteBlock c => _extract_plain_text (rich_text c)
  | CalloutBlock c => _extract_plain_text (callout_rich_text c)
  | CodeBlock c => _extract_plain_text (code_rich_text c)
  | ChildPageBlock title => title
  | ChildDatabaseBlock title => title
  | EquationBlock expr => expr
  | BookmarkBlock b => bookmark_url b
  | EmbedBlock u => u
  | LinkPreviewBlock u => u
  | _ => EmptyString
  end.

(** The list [texts] that the loop of [get_plain_text] builds. *)
Definition block_texts (blocks : list Block) : list string :=
  filter truthy (map _get_block_text blocks).

(** [PageBlocksResponse.get_plain_text] *)
Definition get_plain_text (self : PageBlocksResponse) : string :=
  join nl (block_texts (results self)).

(** ** Blog pages ([models/blogdatasource.py]) *)

Record SelectOption : Type := mkSelectOption {
  option_id : string;
  option_name : string;
  option_color : string
}.

(** [BlogProperties]: each property by its value; the [id] and [type] of
    the property wrappers are read by no method. *)
Record BlogProperties : Type := mkBlogProperties {
  Status_select : option SelectOption;
  Tags_multi_select : list SelectOption;
  Slug_rich_text : list RichText;
  Description_rich_text : list RichText;
  Type_select : option SelectOption;
  Name_title : list RichText
}.

(** [BlogPage]: the fields its methods read. *)
Record BlogPage : Type := mkBlogPage {
  properties : BlogProperties;
  page_url : string
}.

Record BlogDataSourceResponse : Type := mkBlogDataSourceResponse {
  ds_results : list BlogPage;
  ds_next_cursor : option string;
  ds_has_more : bool
}.

(** [BlogPage.get_title], [get_slug], [get_description] *)
Definition get_title (self : BlogPage) : string :=
  join_empty (map plain_text (Name_title (properties self))).

Definition get_slug (self : BlogPage) : string :=
  join_empty (map plain_text (Slug_rich_text (properties self))).

Definition get_description (self : BlogPage) : string :=
  join_empty (map plain_text (Description_rich_text (properties self))).

(** [BlogPage.get_status], [get_type], [get_tags] *)
Definition get_status (self : BlogPage) : option string :=
  match Status_select (properties self) with
  | Some o => Some (option_name o)
  | None => None
  end.

Definition get_type (self : BlogPage) : option string :=
  match Type_select (properties self) with
  | Some o => Some (option_name o)
  | None => None
  end.

Definition get_tags (self : BlogPage) : list string :=
  map option_name (Tags_multi_select (properties self)).

(** [s.split(sep)] for a separator of one character. *)
Fixpoint split_on (sep : ascii) (s : string) : list string :=
  match s with
  | EmptyString => [EmptyString]
  | String c s' =>
      if Ascii.eqb c sep then EmptyString :: split_on sep s'
      else match split_on sep s' with
           | [] => [String c EmptyString]
           | l :: ls => String c l :: ls
           end
  end.

Definition dash : ascii := ascii_of_nat 45.

(** [BlogPage.get_notion_page_id]: [self.url.split("-")[-1]] *)
Definition get_notion_page_id (self : BlogPage) : string :=
  last (split_on dash (page_url self)) EmptyString.

(** ** File names ([sanitize_filename] of [utils/notion.py])

    Characters are bytes here.  Python's case mapping and [isalnum] are
    modelled on ASCII, where they are the usual ones; the properties of
    [sanitize_filename] are stated for ASCII names. *)

Definition is_ascii_char (c : ascii) : bool := (nat_of_ascii c <? 128)%nat.

Fixpoint all_chars (p : ascii -> bool) (s : string) : bool :=
  match s with
  | EmptyString => true
  | String c s' => p c && all_chars p s'
  end.

Definition is_ascii (s : string) : bool := all_chars is_ascii_char s.

Definition is_upper (c : ascii) : bool :=
  ((65 <=? nat_of_ascii c) && (nat_of_ascii c <=? 90))%nat.

Definition is_lower (c : ascii) : bool :=
  ((97 <=? nat_of_ascii c) && (nat_of_ascii c <=? 122))%nat.

Definition is_digit (c : ascii) : bool :=
  ((48 <=? nat_of_ascii c) && (nat_of_ascii c <=? 57))%nat.

(** [c.isalnum()] for an ASCII character; a byte beyond ASCII is not
    classified as Python classifies the character it belongs to. *)
Definition isalnum (c : ascii) : bool := is_upper c || is_lower c || is_digit c.

Definition lower_char (c : ascii) : ascii :=
  if is_upper c then ascii_of_nat (nat_of_ascii c + 32) else c.

Fixpoint map_chars (f : ascii -> ascii) (s : string) : string :=
  match s with
  | EmptyString => EmptyString
  | String c s' => String (f c) (map_chars f s')
  end.

Fixpoint filter_chars (p : ascii -> bool) (s : string) : string :=
  match s with
  | EmptyString => EmptyString
  | String c s' => if p c then String c (filter_chars p s') else filter_chars p s'
  end.

(** [s.lower()] for an ASCII string. *)
Definition lower (s : string) : string := map_chars lower_char s.

Definition space : ascii := ascii_of_nat 32.
Definition underscore : ascii := ascii_of_nat 95.
Definition is_dash (c : ascii) : bool := Ascii.eqb c dash.

(** [s.replace(" ", "-")] *)
Definition spaces_to_dashes (s : string) : string :=
  map_chars (fun c => if Ascii.eqb c space then dash else c) s.

(** [c.isalnum() or c in "-_"] *)
Definition keep_char (c : ascii) : bool :=
  isalnum c || Ascii.eqb c dash || Ascii.eqb c underscore.

(** ["--" in s] *)
Fixpoint contains_dd (s : string) : bool :=
  match s with
  | EmptyString => false
  | String c s' =>
      (is_dash c && match s' with
                    | String c2 _ => is_dash c2
                    | EmptyString => false
                    end)
      || contains_dd s'
  end.

(** [s.replace("--", "-")]: the occurrences are taken from the left and do
    not overlap. *)
Fixpoint replace_dd (s : string) : string :=
  match s with
  | EmptyString => EmptyString
  | String c s' =>
      match s' with
      | String c2 rest =>
          if is_dash c && is_dash c2 then String dash (replace_dd rest)
          else String c (replace_dd s')
      | EmptyString => String c EmptyString
      end
  end.

(** [while "--" in safe: safe = safe.replace("--", "-")], at most [fuel]
    times round the loop. *)
Fixpoint collapse_loop (fuel : nat) (safe : string) : string :=
  match fuel with
  | O => safe
  | S fuel' => if contains_dd safe then collapse_loop fuel' (replace_dd safe) else safe
  end.

(** [s.lstrip("-")], [s.rstrip("-")] and [s.strip("-")] *)
Fixpoint lstrip_dash (s : string) : string :=
  match s with
  | EmptyString => EmptyString
  | String c s' => if is_dash c then lstrip_dash s' else s
  end.

Fixpoint rstrip_dash (s : string) : string :=
  match s with
  | EmptyString => EmptyString
  | String c s' =>
      match rstrip_dash s' with
      | EmptyString => if is_dash c then EmptyString else String c EmptyString
      | r => String c r
      end
  end.

Definition strip_dash (s : string) : string := rstrip_dash (lstrip_dash s).

(** [sanitize_filename]; the loop gets one round of fuel per character,
    which is enough for it to stop by its own test. *)
Definition sanitize_filename (name : string) : string :=
  let safe := spaces_to_dashes (lower name) in
  let safe := filter_chars keep_char safe in
  let safe := collapse_loop (String.length safe) safe in
  let safe := strip_dash safe in
  if truthy safe then safe else "untitled".

(** ** The page fetch of [utils/notion.py] *)

Section FetchPages.

(** The state of the remote service and of the connection. *)
Variable World : Type.

(** [requests.post(url, headers=..., json=payload)], [raise_for_status]
    and [BlogDataSourceResponse.model_validate] on the body: the validated
    page, or [None] when any of them raises. *)
Variable http_post :
  string -> list (string * string) -> World -> option BlogDataSourceResponse * World.

(** [query_data_source] *)
Definition query_data_source (data_source_id : string) (cursor : option string)
    (w : World) : option BlogDataSourceResponse * World :=
  let url := "https://api.notion.com/v1/data_sources/" ++ data_source_id ++ "/query" in
  let payload :=
    match cursor with
    | Some c => if truthy c then [("start_cursor", c)] else []
    | None => []
    end in
  http_post url payload w.

(** The [while True] loop of [fetch_all_pages]; [fuel] bounds the number
    of requests. *)
Fixpoint fetch_pages_loop (fuel : nat) (data_source_id : string)
    (cursor : option string) (all_pages : list BlogPage) (w : World)
    : outcome (list BlogPage) * World :=
  match fuel with
  | O => (OutOfFuel, w)
  | S fuel' =>
      match query_data_source data_source_id cursor w with
      | (None, w') => (Raised, w')
      | (Some response, w') =>
          let all_pages := (all_pages ++ ds_results response)%list in
          if negb (ds_has_more response)
          then (Returned all_pages, w')
          else fetch_pages_loop fuel' data_source_id (ds_next_cursor response)
                                all_pages w'
      end
  end.

(** [fetch_all_pages] *)
Definition fetch_all_pages (fuel : nat) (data_source_id : string) (w : World)
    : outcome (list BlogPage) * World :=
  fetch_pages_loop fuel data_source_id None [] w.

(** [fetch_datasource_pages] of [tasks/datasource.py] *)
Definition fetch_datasource_pages (fuel : nat) (data_source_id : string) (w : World)
    : outcome (list BlogPage) * World :=
  fetch_all_pages fuel data_source_id w.

(** The answers a page fetch receives, as [pages_from] for blocks. *)
Inductive answers_from (data_source_id : string)
    : World -> option string -> list BlogDataSourceResponse -> World -> Prop :=
| answers_last w cursor p w' :
    query_data_source data_source_id cursor w = (Some p, w') ->
    ds_has_more p = false ->
    answers_from data_source_id w cursor [p] w'
| answers_more w cursor p w1 ps w' :
    query_data_source data_source_id cursor w = (Some p, w1) ->
    ds_has_more p = true ->
    answers_from data_source_id w1 (ds_next_cursor p) ps w' ->
    answers_from data_source_id w cursor (p :: ps) w'.

End FetchPages.

Section FetchFailure.

Variable World : Type.
Variable http_get :
  string -> list (string * string) -> World -> option PageBlocksResponse * World.

(** [fails_after n w cursor w']: from cursor [cursor] in world [w], [n]
    requests succeed, each announcing more, and the next one raises,
    leaving the world at [w']. *)
Inductive fails_after (page_id : string)
    : nat -> World -> option string -> World -> Prop :=
| fails_now w cursor w' :
    get_block_children World http_get page_id cursor w = (None, w') ->
    fails_after page_id O w cursor w'
| fails_later n w cursor p w1 w' :
    get_block_children World http_get page_id cursor w = (Some p, w1) ->
    has_more p = true ->
    fails_after page_id n w1 (next_cursor p) w' ->
    fails_after page_id (S n) w cursor w'.

End FetchFailure.

(** A service that answers every request with the same page, which
    announces more. *)
Definition endless_get (u : string) (params : list (string * string)) (w : unit)
    : option PageBlocksResponse * unit :=
  (Some (mkPageBlocksResponse [DividerBlock] (Some "again") true None), w).

(** The scripted service for page fetches. *)
Definition scripted_post (u : string) (params : list (string * string))
    (w : list BlogDataSourceResponse)
    : option BlogDataSourceResponse * list BlogDataSourceResponse :=
  match w with
  | [] => (None, [])
  | p :: rest => (Some p, rest)
  end.

(** ** More definitions used to state the properties *)

(** Whether the string ends with a newline. *)
Fixpoint ends_with_nl (s : string) : bool :=
  match s with
  | EmptyString => false
  | String c EmptyString => Ascii.eqb c nl_char
  | String _ s' => ends_with_nl s'
  end.

(** The classes whose fragment is empty in both dialects. *)
Definition renders_nothing (b : Block) : bool :=
  match b with
  | BreadcrumbBlock | ColumnListBlock | ColumnBlock | TableBlock _ | UnsupportedBlock => true
  | _ => false
  end.

(** The blocks for which the MDX renderer has no component and no color to
    apply. *)
Definition plain_in_mdx (b : Block) : bool :=
  match b with
  | ParagraphBlock c => is_default (color c)
  | Heading1Block h | Heading2Block h | Heading3Block h => is_default (heading_color h)
  | BulletedListItemBlock c | NumberedListItemBlock c | QuoteBlock c => is_default (color c)
  | ToDoBlock t => is_default (to_do_color t)
  | CodeBlock _ | DividerBlock | TableRowBlock _ => true
  | BreadcrumbBlock | ColumnListBlock | ColumnBlock | TableBlock _ | UnsupportedBlock => true
  | _ => false
  end.

(** The blocks whose fragment starts with the indentation and uses it
    nowhere else. *)
Definition indent_prefixed (b : Block) : bool :=
  match b with
  | BulletedListItemBlock _ | NumberedListItemBlock _ | ToDoBlock _ => true
  | _ => false
  end.

(** A span without formatting: no code, bold, italic or strikethrough
    annotation and no link target. *)
Definition unformatted (rt : RichText) : bool :=
  let a := annotations rt in
  negb (code a) && negb (bold a) && negb (italic a) && negb (strikethrough a)
  && match href rt with
     | Some h => negb (truthy h)
     | None => true
     end.

(** The characters of a sanitized name. *)
Definition is_slug_char (c : ascii) : bool :=
  is_lower c || is_digit c || Ascii.eqb c dash || Ascii.eqb c underscore.

Definition first_char (s : string) : option ascii :=
  match s with
  | EmptyString => None
  | String c _ => Some c
  end.

Fixpoint last_char (s : string) : option ascii :=
  match s with
  | EmptyString => None
  | String c EmptyString => Some c
  | String _ s' => last_char s'
  end.

Definition is_dash_opt (c : option ascii) : bool :=
  match c with
  | Some c => is_dash c
  | None => false
  end.

(** More sample inputs. *)

(** A raw block whose [type] is a number, and one with two [type] members. *)
Definition raw_numeric_type : json :=
  JObj [ ("object", JStr "block"); ("type", JNum 5) ].

Definition raw_repeated_type : json :=
  JObj [ ("type", JStr "synced_block"); ("type", JStr "divider") ].



Definition sample_page (u : string) : BlogPage :=
  mkBlogPage (mkBlogProperties None [] [] [] None [plain "Post"]) u.

Definition answer_one : BlogDataSourceResponse :=
  mkBlogDataSourceResponse [sample_page "https://www.notion.so/Post-1a2b"] (Some "c1") true.

Definition answer_two : BlogDataSourceResponse :=
  mkBlogDataSourceResponse [sample_page "https://www.notion.so/Other-3c4d"] None false.

(** * Properties *)

(** ** Strings *)

Lemma append_assoc (a b c : string) : (a ++ b) ++ c = a ++ (b ++ c).
Proof.
  induction a as [|x a IH]; simpl; [reflexivity | now rewrite IH].
Qed.

Lemma append_empty_r (a : string) : a ++ EmptyString = a.
Proof.
  induction a as [|x a IH]; simpl; [reflexivity | now rewrite IH].
Qed.

Lemma join_empty_app (l1 l2 : list string) :
  join_empty (l1 ++ l2) = join_empty l1 ++ join_empty l2.
Proof.
  induction l1 as [|x l1 IH]; simpl; [reflexivity|].
  now rewrite IH, append_assoc.
Qed.

Lemma truthy_false (s : string) : truthy s = false -> s = EmptyString.
Proof.
  destruct s; simpl; [reflexivity | discriminate].
Qed.

(** ** The rich-text formatter *)

(** C2, counterexample: a span whose [href] is present but empty is not
    wrapped as a link; the formatter returns the bare text, not [[x]()]. *)
Lemma format_span_empty_href_not_linked :
  href span_empty_href = Some EmptyString
  /\ format_span span_empty_href = "x"
  /\ format_span span_empty_href <> "[" ++ "x" ++ "](" ++ EmptyString ++ ")".
Proof.
  split; [reflexivity|]. split; [reflexivity | discriminate].
Qed.

(** C2, amended: for every span the formatter wraps the plain text in the
    backtick pair if [code], then in the double-asterisk pair if [bold],
    then in the single-asterisk pair if [italic], then in the double-tilde
    pair if [strikethrough]; [underline] has no effect; last, if [href] is
    present and not the empty string, the formatted text is wrapped as
    [[text](href)].  The span "x", bold and code, linked to "u", renders
    to [[**`x`**](u)]. *)
Theorem format_span_order (rt : RichText) :
  format_span rt =
    (let a := annotations rt in
     let t := wrap_mark (strikethrough a) "~~"
                (wrap_mark (italic a) "*"
                   (wrap_mark (bold a) "**"
                      (wrap_mark (code a) "`" (plain_text rt)))) in
     match href rt with
     | Some h => if truthy h then "[" ++ t ++ "](" ++ h ++ ")" else t
     | None => t
     end)
  /\ (forall u, format_span (with_underline u rt) = format_span rt)
  /\ format_span span_bold_code_link = "[**`x`**](u)"
  /\ _rich_text_to_markdown [rt] = format_span rt.
Proof.
  destruct rt as [[b i s u c col] t h].
  split; [|split; [|split]].
  - unfold format_span, wrap_mark; simpl.
    destruct c, b, i, s; reflexivity.
  - intros u'. reflexivity.
  - reflexivity.
  - unfold _rich_text_to_markdown; simpl. apply append_empty_r.
Qed.

(** ** The color wrapper *)

Lemma starts_with_app_stop (tok s r : string) (c : ascii) :
  mem_char c tok = false ->
  starts_with tok (s ++ String c r) = starts_with tok s.
Proof.
  revert s; induction tok as [|a tok IH]; intros s Hc.
  - destruct s; reflexivity.
  - simpl in Hc. apply orb_false_elim in Hc as [Hac Htok].
    destruct s as [|b s]; simpl.
    + now rewrite Hac.
    + now rewrite IH.
Qed.

Lemma occurrences_cons (tok s : string) (b : ascii) :
  occurrences tok (String b s)
  = ((if starts_with tok (String b s) then 1 else 0) + occurrences tok s)%nat.
Proof. reflexivity. Qed.

Lemma occurrences_app_stop (tok s r : string) (c : ascii) :
  mem_char c tok = false ->
  occurrences tok (s ++ String c r) = (occurrences tok (String c r) + occurrences tok s)%nat.
Proof.
  intros Hc; induction s as [|b s IH].
  - change (occurrences tok EmptyString) with O.
    now rewrite Nat.add_0_r.
  - change (String b s ++ String c r) with (String b (s ++ String c r)).
    rewrite (occurrences_cons tok (s ++ String c r) b), (occurrences_cons tok s b).
    change (String b (s ++ String c r)) with (String b s ++ String c r).
    rewrite starts_with_app_stop by assumption.
    rewrite IH.
    destruct (starts_with tok (String b s)); lia.
Qed.

(** The wrapper without the text, for a color that is not the default. *)
Lemma wrap_with_color_shape (text : string) (c : NotionColor) :
  _wrap_with_color text (value c) =
    if is_default c then text
    else "<Span color=" ++ dq ++ value c ++ dq ++ ">" ++ text ++ "</Span>".
Proof.
  destruct c; reflexivity.
Qed.

(** C4, counterexample: wrapping the text "hundred" in red gives an output
    in which the token "red" occurs twice, once in the attribute and once
    in the text. *)
Lemma wrap_with_color_token_twice :
  _wrap_with_color "hundred" (value RED)
    = "<Span color=" ++ dq ++ "red" ++ dq ++ ">hundred</Span>"
  /\ occurrences (value RED) (_wrap_with_color "hundred" (value RED)) = 2%nat.
Proof.
  split; reflexivity.
Qed.

(** C4, amended: with the default color the helper returns the text
    unchanged; with any other color it returns the text inside one
    [Span] wrapper whose [color] attribute is the token, so the token
    occurs in the output once more than in the text (exactly once when the
    text does not contain it). *)
Theorem wrap_with_color_token (text : string) (c : NotionColor) :
  _wrap_with_color text (value DEFAULT) = text
  /\ _wrap_with_color text (value c)
     = (if is_default c then text
        else "<Span color=" ++ dq ++ value c ++ dq ++ ">" ++ text ++ "</Span>")
  /\ occurrences (value c) (_wrap_with_color text (value c))
     = ((if is_default c then 0 else 1) + occurrences (value c) text)%nat.
Proof.
  split; [reflexivity|]. split; [apply wrap_with_color_shape|].
  rewrite wrap_with_color_shape.
  destruct c; cbv [is_default]; [reflexivity | ..];
    cbv [value dq];
    change (?a ++ ?b ++ ?c ++ ?d ++ ?e ++ text ++ "</Span>")
      with ((a ++ b ++ c ++ d ++ e ++ text) ++ "</Span>");
    rewrite occurrences_app_stop by reflexivity;
    cbn; reflexivity.
Qed.

(** ** Quotes *)

Lemma split_nl_not_nil (s : string) : split_nl s <> [].
Proof.
  induction s as [|c s IH]; simpl; [discriminate|].
  destruct (Ascii.eqb c nl_char); [discriminate|].
  destruct (split_nl s); discriminate.
Qed.

Lemma split_nl_pieces (s : string) :
  Forall (fun l => mem_char nl_char l = false) (split_nl s).
Proof.
  induction s as [|c s IH]; simpl.
  - constructor; [reflexivity | constructor].
  - destruct (Ascii.eqb c nl_char) eqn:E.
    + constructor; [reflexivity | assumption].
    + destruct (split_nl s) as [|l ls].
      * constructor; [simpl; now rewrite E | constructor].
      * inversion IH; subst. constructor; [simpl; now rewrite E | assumption].
Qed.

Lemma split_nl_app_nl (x s : string) :
  mem_char nl_char x = false ->
  split_nl (x ++ nl ++ s) = x :: split_nl s.
Proof.
  induction x as [|c x IH]; intros H.
  - reflexivity.
  - simpl in H. apply orb_false_elim in H as [Hc Hx].
    change (String c x ++ nl ++ s) with (String c (x ++ nl ++ s)).
    cbn [split_nl]. rewrite Hc, (IH Hx). reflexivity.
Qed.

Lemma split_nl_one (x : string) :
  mem_char nl_char x = false -> split_nl x = [x].
Proof.
  induction x as [|c x IH]; intros H.
  - reflexivity.
  - simpl in H. apply orb_false_elim in H as [Hc Hx].
    cbn [split_nl]. rewrite Hc, (IH Hx). reflexivity.
Qed.

Lemma split_nl_join (ls : list string) :
  ls <> [] ->
  Forall (fun l => mem_char nl_char l = false) ls ->
  split_nl (join nl ls) = ls.
Proof.
  induction ls as [|x ls IH]; intros Hne Hall; [congruence|].
  inversion Hall as [|? ? Hx Hls]; subst.
  destruct ls as [|y ls].
  - simpl. now apply split_nl_one.
  - change (join nl (x :: y :: ls)) with (x ++ nl ++ join nl (y :: ls)).
    rewrite split_nl_app_nl by assumption.
    rewrite IH; [reflexivity | discriminate | assumption].
Qed.

Lemma quote_lines_split (text : string) :
  split_nl (quote_lines text) = map (fun line => "> " ++ line) (split_nl text).
Proof.
  unfold quote_lines. apply split_nl_join.
  - pose proof (split_nl_not_nil text) as H.
    destruct (split_nl text); [congruence | discriminate].
  - pose proof (split_nl_pieces text) as H.
    induction H as [|l ls Hl _ IH]; simpl; constructor; [exact Hl | exact IH].
Qed.

(** C7: for every quote block the MDX renderer emits the [Quote] component
    carrying the color as its attribute when the color is not the default,
    and with the default color the plain-Markdown form, whose lines are the
    lines of the formatted text, each prefixed with "> ". *)
Theorem quote_mdx_by_color (q : RichTextBlockContent) (indent : Z) (number : option Z) :
  let text := _rich_text_to_markdown (rich_text q) in
  _block_to_mdx (QuoteBlock q) indent number
    = (if is_default (color q)
       then quote_lines text ++ nl
       else "<Quote color=" ++ dq ++ value (color q) ++ dq ++ ">" ++ text
              ++ "</Quote>" ++ nl)
  /\ _block_to_markdown (QuoteBlock q) indent number = quote_lines text ++ nl
  /\ split_nl (quote_lines text) = map (fun line => "> " ++ line) (split_nl text).
Proof.
  intros text. split; [|split].
  - destruct q as [rt c]. subst text. destruct c; reflexivity.
  - reflexivity.
  - apply quote_lines_split.
Qed.

(** ** Callouts and images *)

(** C8: a callout with the emoji icon of the light bulb, rich text that
    renders to "note" and the default color renders in MDX to the
    [Callout] component on three lines. *)
Theorem callout_mdx_example (rt : list RichText) (indent : Z) (number : option Z) :
  _rich_text_to_markdown rt = "note" ->
  _block_to_mdx (CalloutBlock (mkCalloutContent rt (Some (EmojiIcon "💡")) DEFAULT))
                indent number
  = "<Callout icon=" ++ dq ++ "💡" ++ dq ++ " color=" ++ dq ++ "default" ++ dq ++ ">"
      ++ nl ++ "  note" ++ nl ++ "</Callout>" ++ nl.
Proof.
  intros H. unfold _block_to_mdx. simpl. rewrite H. reflexivity.
Qed.

Lemma callout_mdx_example_witness :
  _rich_text_to_markdown [plain "note"] = "note"
  /\ _block_to_mdx (CalloutBlock (mkCalloutContent [plain "note"] (Some (EmojiIcon "💡")) DEFAULT))
                   0 None
     = "<Callout icon=" ++ dq ++ "💡" ++ dq ++ " color=" ++ dq ++ "default" ++ dq ++ ">"
         ++ nl ++ "  note" ++ nl ++ "</Callout>" ++ nl.
Proof.
  split; [reflexivity | apply (callout_mdx_example [plain "note"] 0 None); reflexivity].
Defined.

(** C10, counterexample: an image whose caption list holds one span of
    empty text has a non-empty caption list, yet the MDX renderer emits no
    [alt] attribute for it. *)
Lemma image_blank_caption_no_alt :
  caption image_blank_caption <> []
  /\ _block_to_mdx (ImageBlock image_blank_caption) 0 None
     = "<Image src=" ++ dq ++ "u" ++ dq ++ " />" ++ nl
  /\ _block_to_mdx (ImageBlock image_blank_caption) 0 None
     <> "<Image src=" ++ dq ++ "u" ++ dq ++ " alt=" ++ dq
          ++ _rich_text_to_markdown (caption image_blank_caption) ++ dq ++ " />" ++ nl.
Proof.
  split; [discriminate|]. split; [reflexivity | discriminate].
Qed.

(** C10, amended: for an image with an empty caption list the Markdown
    renderer uses the alt text "image" and the MDX renderer omits the
    [alt] attribute; with a non-empty caption list the Markdown renderer
    uses the formatted caption as the alt text, and the MDX renderer uses
    it as the [alt] attribute when it is not the empty string and omits
    the attribute when it is. *)
Theorem image_caption_rule (im : FileObject) (indent : Z) (number : option Z) :
  let text := _rich_text_to_markdown (caption im) in
  _block_to_markdown (ImageBlock im) indent number
    = "![" ++ (match caption im with [] => "image" | _ :: _ => text end)
        ++ "](" ++ external_url im ++ ")" ++ nl
  /\ _block_to_mdx (ImageBlock im) indent number
     = (match caption im with
        | [] => "<Image src=" ++ dq ++ external_url im ++ dq ++ " />" ++ nl
        | _ :: _ =>
            if truthy text
            then "<Image src=" ++ dq ++ external_url im ++ dq ++ " alt=" ++ dq
                   ++ text ++ dq ++ " />" ++ nl
            else "<Image src=" ++ dq ++ external_url im ++ dq ++ " />" ++ nl
        end)
  /\ _block_to_markdown (ImageBlock image_no_caption) indent number
     = "![image](u)" ++ nl
  /\ _block_to_mdx (ImageBlock image_no_caption) indent number
     = "<Image src=" ++ dq ++ "u" ++ dq ++ " />" ++ nl.
Proof.
  intros text. subst text.
  destruct im as [ext cap nm].
  split; [|split; [|split]]; try reflexivity.
  - destruct cap; reflexivity.
  - destruct cap; reflexivity.
Qed.

(** ** The document assemblers *)

Section Assembler.

Variable render : Block -> Z -> option Z -> string.

Lemma loop_init_inv : loop_inv loop_init.
Proof. intros _; reflexivity. Qed.

Lemma loop_step_inv (st : LoopState) (b : Block) :
  loop_inv st -> loop_inv (loop_step render st b).
Proof.
  unfold loop_inv, loop_step; intros Hst.
  destruct (is_numbered_type (type b)) eqn:E; simpl.
  - rewrite E; discriminate.
  - intros _. destruct (prev_is_numbered (prev_type st)); [reflexivity | now apply Hst].
Qed.

Lemma loop_step_lines (st : LoopState) (b : Block) :
  loop_inv st ->
  join_empty (lines (loop_step render st b))
  = join_empty (lines st)
      ++ render b 0 (if is_numbered b then Some (numbered_list_counter st + 1) else None).
Proof.
  unfold loop_inv, loop_step, is_numbered; intros Hst.
  destruct (is_numbered_type (type b)) eqn:E; cbn [negb andb lines].
  - destruct (truthy _) eqn:T.
    + rewrite join_empty_app; simpl. now rewrite append_empty_r.
    + apply truthy_false in T. rewrite T. now rewrite append_empty_r.
  - destruct (truthy _) eqn:T.
    + rewrite join_empty_app; simpl. now rewrite append_empty_r.
    + apply truthy_false in T. rewrite T. now rewrite append_empty_r.
Qed.

Lemma loop_step_counter (st : LoopState) (b : Block) :
  loop_inv st ->
  numbered_list_counter (loop_step render st b)
  = if is_numbered b then numbered_list_counter st + 1 else 0.
Proof.
  unfold loop_inv, loop_step, is_numbered; intros Hst.
  destruct (is_numbered_type (type b)) eqn:E; cbn [negb andb numbered_list_counter].
  - reflexivity.
  - destruct (prev_is_numbered (prev_type st)); [reflexivity | now apply Hst].
Qed.

Lemma fold_loop_spec (blocks : list Block) :
  forall st, loop_inv st ->
  join_empty (lines (fold_left (loop_step render) blocks st))
  = join_empty (lines st)
      ++ join_empty (map (fragment render) (counters_spec (numbered_list_counter st) blocks)).
Proof.
  induction blocks as [|b blocks IH]; intros st Hst.
  - simpl. now rewrite append_empty_r.
  - cbn [fold_left counters_spec].
    rewrite (IH _ (loop_step_inv st b Hst)).
    rewrite loop_step_lines, loop_step_counter by assumption.
    rewrite append_assoc.
    destruct (is_numbered b); reflexivity.
Qed.

Lemma assemble_document_spec (blocks : list Block) :
  assemble render blocks = document_spec render blocks.
Proof.
  unfold assemble, document_spec.
  now rewrite (fold_loop_spec blocks loop_init loop_init_inv).
Qed.

Lemma counters_spec_app (l1 l2 : list Block) :
  forall c,
  counters_spec c (l1 ++ l2)
  = (counters_spec c l1 ++ counters_spec (counter_after c l1) l2)%list.
Proof.
  induction l1 as [|b l1 IH]; intros c; [reflexivity|].
  cbn [app counters_spec counter_after].
  destruct (is_numbered b); rewrite IH; reflexivity.
Qed.

Lemma counter_after_app (l1 l2 : list Block) :
  forall c, counter_after c (l1 ++ l2) = counter_after (counter_after c l1) l2.
Proof.
  induction l1 as [|b l1 IH]; intros c; [reflexivity|].
  cbn [app counter_after]. apply IH.
Qed.

Lemma counter_after_ends (l : list Block) :
  ends_numbered l = false -> counter_after 0 l = 0.
Proof.
  destruct l as [|b l] using rev_ind; [reflexivity|].
  unfold ends_numbered. rewrite rev_unit. intros Hb.
  rewrite counter_after_app. simpl. now rewrite Hb.
Qed.

Lemma counters_spec_starts (l : list Block) (c : Z) :
  starts_numbered l = false -> counters_spec c l = counters_spec 0 l.
Proof.
  destruct l as [|b l]; [reflexivity|].
  simpl. intros Hb. now rewrite Hb.
Qed.

Lemma counters_spec_run (items : list RichTextBlockContent) (post : list Block) :
  forall c,
  starts_numbered post = false ->
  join_empty (map (fragment render) (counters_spec c (map NumberedListItemBlock items ++ post)))
  = run_fragments render c items ++ join_empty (map (fragment render) (counters_spec 0 post)).
Proof.
  induction items as [|i items IH]; intros c Hpost.
  - simpl. now rewrite (counters_spec_starts post c Hpost).
  - cbn [map app counters_spec run_fragments join_empty].
    change (is_numbered (NumberedListItemBlock i)) with true.
    cbn [map join_empty]. rewrite (IH _ Hpost).
    unfold fragment at 1. simpl fst. simpl snd. now rewrite append_assoc.
Qed.

Lemma assemble_run (pre post : list Block) (items : list RichTextBlockContent) :
  ends_numbered pre = false ->
  starts_numbered post = false ->
  assemble render (pre ++ map NumberedListItemBlock items ++ post)
  = assemble render pre ++ run_fragments render 0 items ++ assemble render post.
Proof.
  intros Hpre Hpost.
  rewrite !assemble_document_spec. unfold document_spec.
  rewrite counters_spec_app, map_app, join_empty_app.
  rewrite (counter_after_ends pre Hpre).
  now rewrite counters_spec_run.
Qed.

End Assembler.

Lemma run_fragments_markdown (items : list RichTextBlockContent) :
  forall c, run_fragments _block_to_markdown c items = numbered_run_markdown (c + 1) items.
Proof.
  induction items as [|i items IH]; intros c; [reflexivity|].
  cbn [run_fragments numbered_run_markdown]. rewrite IH.
  change (_block_to_markdown (NumberedListItemBlock i) 0 (Some (c + 1)))
    with (str_of_int (c + 1) ++ ". " ++ _rich_text_to_markdown (rich_text i) ++ nl).
  now rewrite !append_assoc.
Qed.

Lemma run_fragments_mdx (items : list RichTextBlockContent) :
  forall c, run_fragments _block_to_mdx c items = numbered_run_mdx (c + 1) items.
Proof.
  induction items as [|i items IH]; intros c; [reflexivity|].
  cbn [run_fragments numbered_run_mdx]. rewrite IH.
  change (_block_to_mdx (NumberedListItemBlock i) 0 (Some (c + 1)))
    with (str_of_int (c + 1) ++ ". "
            ++ _wrap_with_color (_rich_text_to_markdown (rich_text i)) (value (color i))
            ++ nl).
  now rewrite !append_assoc.
Qed.

(** C3: in both dialects a maximal run of consecutive numbered list items
    (the blocks before it do not end with a numbered item, the blocks after
    it do not start with one) is rendered with the numbers 1, 2, 3, ... in
    order, and the blocks around it are rendered as they are on their own,
    so that a later run starts at 1 again. *)
Theorem numbered_runs_restart (pre post : list Block) (items : list RichTextBlockContent) :
  ends_numbered pre = false ->
  starts_numbered post = false ->
  to_markdown (response_of (pre ++ map NumberedListItemBlock items ++ post))
    = to_markdown (response_of pre) ++ numbered_run_markdown 1 items
        ++ to_markdown (response_of post)
  /\ to_mdx (response_of (pre ++ map NumberedListItemBlock items ++ post))
     = to_mdx (response_of pre) ++ numbered_run_mdx 1 items
         ++ to_mdx (response_of post).
Proof.
  intros Hpre Hpost. unfold to_markdown, to_mdx, response_of; cbn [results].
  rewrite !assemble_run by assumption.
  now rewrite run_fragments_markdown, run_fragments_mdx.
Qed.

Lemma numbered_runs_restart_witness :
  to_markdown (response_of sample_document)
    = ("Hello" ++ nl) ++ ("1. a" ++ nl ++ "2. b" ++ nl) ++ ("---" ++ nl ++ "1. c" ++ nl)
  /\ to_mdx (response_of sample_document)
     = ("Hello" ++ nl) ++ ("1. a" ++ nl ++ "2. b" ++ nl) ++ ("---" ++ nl ++ "1. c" ++ nl).
Proof.
  exact (numbered_runs_restart
           [ParagraphBlock (mkRichTextBlockContent [plain "Hello"] DEFAULT)]
           [DividerBlock; item "c"]
           [item_content "a"; item_content "b"]
           eq_refl eq_refl).
Defined.

(** C5: the output of each document-level renderer is the concatenation,
    in source order and with nothing in between or after, of the fragments
    the single-block renderer gives for each block with the counter of the
    run-counter rule. *)
Theorem document_is_concatenation (self : PageBlocksResponse) :
  to_markdown self = document_spec _block_to_markdown (results self)
  /\ to_mdx self = document_spec _block_to_mdx (results self).
Proof.
  split; apply assemble_document_spec.
Qed.





(** ** Unrecognized discriminators *)

Lemma unsupported_type_inv (b : Block) : type b = "unsupported" -> b = UnsupportedBlock.
Proof.
  destruct b; simpl; intros H; try discriminate H; reflexivity.
Qed.

Lemma select_class_unknown (raw tag : json) :
  discriminator raw = Some tag ->
  tag_literal tag = None ->
  select_class raw = Err (union_tag_invalid tag).
Proof.
  intros Hd Ht. destruct raw; try discriminate Hd.
  unfold select_class. now rewrite Hd, Ht.
Qed.

Lemma select_class_ok (raw : json) (literal : string) :
  select_class raw = Ok literal <->
  discriminator raw = Some (JStr literal) /\ is_block_tag literal = true.
Proof.
  split.
  - destruct raw; try discriminate. unfold select_class.
    destruct (discriminator (JObj fields)) as [tag|]; [|discriminate].
    destruct tag; try discriminate. cbn [tag_literal].
    destruct (is_block_tag s) eqn:E; [|discriminate].
    intros H; inversion H; subst. now split.
  - intros [Hd Ht]. destruct raw; try discriminate Hd.
    unfold select_class. rewrite Hd. cbn [tag_literal]. now rewrite Ht.
Qed.

Lemma validate_items_error (validate_class : string -> json -> Result Block)
    (raw : json) (e : ValidationError) :
  validate_Block validate_class raw = Err e ->
  forall before after index,
    In ((index + length before)%nat, e)
       (snd (validate_items validate_class index (before ++ raw :: after))).
Proof.
  intros He before after; induction before as [|x before IH]; intros index.
  - cbn [app validate_items length].
    destruct (validate_items validate_class (S index) after) as [blocks errors].
    rewrite He, Nat.add_0_r. now left.
  - cbn [app validate_items length].
    specialize (IH (S index)).
    destruct (validate_items validate_class (S index) (before ++ raw :: after))
      as [blocks errors].
    cbn [snd] in IH. replace (index + S (length before))%nat
      with (S index + length before)%nat by lia.
    destruct (validate_Block validate_class x); cbn [snd]; [exact IH | now right].
Qed.

(** C1, counterexample: a raw block of type "synced_block", which is the
    literal of no class of the union, is not mapped to the unsupported
    variant; the union rejects it, and with it the list that holds it. *)
Lemma unknown_discriminator_rejected :
  discriminator raw_synced_block = Some (JStr "synced_block")
  /\ is_block_tag "synced_block" = false
  /\ select_class raw_synced_block = Err (union_tag_invalid (JStr "synced_block"))
  /\ (forall validate_class,
        validate_Block validate_class raw_synced_block
        = Err (union_tag_invalid (JStr "synced_block")))
  /\ (forall validate_class,
        validate_results validate_class [raw_synced_block]
        = ListErr [(O, union_tag_invalid (JStr "synced_block"))]).
Proof.
  repeat (split; [reflexivity|]). intros vc; reflexivity.
Qed.

(** C1, amended: a raw block whose type discriminator, a string or any
    other value, is the literal of none of the thirty classes of the union
    fails validation with the invalid-tag error that carries the tag, and
    every result list that holds it is rejected with that error reported
    at its index; a class is selected exactly for the raw blocks whose
    discriminator is its literal, so that a block of the unsupported
    variant is only ever parsed from a raw block whose discriminator is
    the literal "unsupported", which is handed to the validator of the
    unsupported class; and every block of the unsupported variant renders
    to the empty string in both dialects. *)
Theorem unrecognized_discriminator (raw tag : json) :
  discriminator raw = Some tag ->
  tag_literal tag = None ->
  (forall validate_class,
     validate_Block validate_class raw = Err (union_tag_invalid tag))
  /\ (forall validate_class before after,
        exists errors,
          validate_results validate_class (before ++ raw :: after) = ListErr errors
          /\ In (length before, union_tag_invalid tag) errors)
  /\ (forall raw' literal,
        select_class raw' = Ok literal <->
        discriminator raw' = Some (JStr literal) /\ is_block_tag literal = true)
  /\ (forall validate_class raw' b,
        class_respecting validate_class ->
        validate_Block validate_class raw' = Ok b ->
        discriminator raw' = Some (JStr (type b)))
  /\ (forall validate_class raw',
        discriminator raw' = Some (JStr "unsupported") ->
        validate_Block validate_class raw' = validate_class "unsupported" raw')
  /\ (forall b indent number,
        type b = "unsupported" ->
        _block_to_markdown b indent number = EmptyString
        /\ _block_to_mdx b indent number = EmptyString).
Proof.
  intros Hd Ht.
  assert (Hv : forall vc, validate_Block vc raw = Err (union_tag_invalid tag)).
  { intros vc. unfold validate_Block. now rewrite (select_class_unknown raw tag). }
  split; [exact Hv|]. split; [|split; [|split; [|split]]].
  - intros vc before after.
    pose proof (validate_items_error vc raw _ (Hv vc) before after O) as Hin.
    unfold validate_results.
    destruct (validate_items vc O (before ++ raw :: after)) as [blocks errors].
    cbn [snd plus] in Hin. destruct errors as [|e errors]; [destruct Hin|].
    exists (e :: errors). now split.
  - apply select_class_ok.
  - intros vc raw' b Hvc Hb. unfold validate_Block in Hb.
    destruct (select_class raw') as [literal|e] eqn:S; [|discriminate Hb].
    apply select_class_ok in S as [S _].
    now rewrite (Hvc literal raw' b Hb).
  - intros vc raw' Hd'. unfold validate_Block.
    now rewrite (proj2 (select_class_ok raw' "unsupported") (conj Hd' eq_refl)).
  - intros b indent number Hb.
    rewrite (unsupported_type_inv b Hb). split; reflexivity.
Qed.

Lemma unrecognized_discriminator_witness :
  discriminator raw_synced_block = Some (JStr "synced_block")
  /\ tag_literal (JStr "synced_block") = None
  /\ (forall validate_class,
        validate_Block validate_class raw_synced_block
        = Err (union_tag_invalid (JStr "synced_block"))).
Proof.
  split; [reflexivity|]. split; [reflexivity|].
  exact (proj1 (unrecognized_discriminator raw_synced_block (JStr "synced_block")
                  eq_refl eq_refl)).
Defined.

(** A tag that is not a string, the last of two [type] members, and the
    stand-in validator on the raw unsupported block. *)
Lemma validation_examples :
  select_class raw_numeric_type = Err (union_tag_invalid (JNum 5))
  /\ select_class raw_repeated_type = Ok "divider"
  /\ class_respecting unsupported_only
  /\ validate_Block unsupported_only raw_unsupported_block = Ok UnsupportedBlock
  /\ validate_results unsupported_only
       [raw_unsupported_block; raw_synced_block; raw_numeric_type]
     = ListErr [(1%nat, union_tag_invalid (JStr "synced_block"));
                (2%nat, union_tag_invalid (JNum 5))].
Proof.
  split; [reflexivity|]. split; [reflexivity|]. split; [|split; reflexivity].
  intros tag raw b. unfold unsupported_only.
  destruct (String.eqb tag "unsupported") eqn:E; [|discriminate].
  intros H; inversion H; subst. apply String.eqb_eq in E. now subst.
Qed.

(** ** The paginated fetch *)

Section FetchProperties.

Variable World : Type.
Variable http_get :
  string -> list (string * string) -> World -> option PageBlocksResponse * World.
Variable page_id : string.

Lemma pages_from_not_nil w cursor pages w' :
  pages_from World http_get page_id w cursor pages w' -> pages <> [].
Proof.
  intros H; destruct H; discriminate.
Qed.

(** The loop, given the pages it is served and fuel for each of them,
    returns the first response it ever saw and every result in order. *)
Lemma fetch_loop_pages w cursor pages w' :
  pages_from World http_get page_id w cursor pages w' ->
  forall fuel first_response all_results,
  (length pages <= fuel)%nat ->
  fetch_loop World http_get fuel page_id cursor first_response all_results w
  = (Returned
       (match first_response with
        | Some r => Some r
        | None => hd_error pages
        end,
        (all_results ++ concat (map results pages))%list),
     w').
Proof.
  induction 1 as [w cursor p w' Hget Hmore | w cursor p w1 ps w' Hget Hmore Hrest IH];
    intros fuel first_response all_results Hfuel.
  - destruct fuel as [|fuel]; [simpl in Hfuel; lia|].
    cbn [fetch_loop]. rewrite Hget, Hmore. cbn [negb map concat hd_error].
    rewrite app_nil_r. destruct first_response; reflexivity.
  - destruct fuel as [|fuel]; [simpl in Hfuel; lia|].
    cbn [fetch_loop]. rewrite Hget, Hmore. cbn [negb].
    rewrite IH by (simpl in Hfuel; lia).
    cbn [map concat hd_error]. rewrite <- app_assoc.
    destruct first_response; reflexivity.
Qed.

(** C9: when every page request succeeds and the pages form a finite
    chain, [fetch_all_blocks] returns, given fuel for each request, one
    response whose results are the results of all pages in request order,
    whose [has_more] is false and whose [next_cursor] is absent. *)
Theorem fetch_all_blocks_merges w pages w' :
  pages_from World http_get page_id w None pages w' ->
  forall fuel, (length pages <= fuel)%nat ->
  exists r,
    fetch_all_blocks World http_get fuel page_id w = (Returned (Some r), w')
    /\ results r = concat (map results pages)
    /\ has_more r = false
    /\ next_cursor r = None.
Proof.
  intros Hpages fuel Hfuel.
  pose proof (pages_from_not_nil _ _ _ _ Hpages) as Hne.
  unfold fetch_all_blocks.
  rewrite (fetch_loop_pages _ _ _ _ Hpages fuel None [] Hfuel).
  destruct pages as [|p ps]; [congruence|].
  cbn [hd_error app].
  eexists; split; [reflexivity|]. repeat split.
Qed.

End FetchProperties.

Lemma scripted_pages :
  pages_from (list PageBlocksResponse) scripted_get "page"
             [page_one; page_two] None [page_one; page_two] [].
Proof.
  apply pages_more with (w1 := [page_two]); [reflexivity | reflexivity |].
  apply pages_last; reflexivity.
Defined.

Lemma fetch_all_blocks_merges_witness :
  exists r,
    fetch_all_blocks (list PageBlocksResponse) scripted_get 2 "page" [page_one; page_two]
    = (Returned (Some r), [])
    /\ results r = [item "a"; item "b"; DividerBlock]
    /\ has_more r = false
    /\ next_cursor r = None.
Proof.
  exact (fetch_all_blocks_merges (list PageBlocksResponse) scripted_get "page"
           [page_one; page_two] [page_one; page_two] [] scripted_pages 2%nat (le_n 2)).
Defined.

(** * Further properties of the code *)

(** ** Shape of the fragments *)

Lemma ends_with_nl_cons (c : ascii) (s : string) :
  ends_with_nl s = true -> ends_with_nl (String c s) = true.
Proof.
  destruct s; [discriminate | intros H; exact H].
Qed.

Lemma ends_with_nl_app (a b : string) :
  ends_with_nl b = true -> ends_with_nl (a ++ b) = true.
Proof.
  intros H; induction a as [|c a IH]; [exact H|].
  change (String c a ++ b) with (String c (a ++ b)).
  now apply ends_with_nl_cons.
Qed.

Lemma ends_with_nl_not_empty (s : string) : ends_with_nl s = true -> s <> EmptyString.
Proof.
  destruct s; [discriminate | intros _; discriminate].
Qed.

Ltac ends_nl :=
  repeat first [ reflexivity | apply ends_with_nl_app | apply ends_with_nl_cons ].

Ltac split_ifs :=
  repeat match goal with
         | |- context [if ?x then _ else _] => destruct x
         | |- context [match ?x with Some _ => _ | None => _ end] => destruct x
         | |- context [match ?x with EmojiIcon _ => _ | FileIcon _ => _ end] => destruct x
         end.

Lemma markdown_fragment_shape (b : Block) (i : Z) (n : option Z) :
  if renders_nothing b then _block_to_markdown b i n = EmptyString
  else ends_with_nl (_block_to_markdown b i n) = true.
Proof.
  destruct b; cbv [renders_nothing _block_to_markdown]; cbv zeta;
    try reflexivity; split_ifs; ends_nl.
Qed.

Lemma mdx_fragment_shape (b : Block) (i : Z) (n : option Z) :
  if renders_nothing b then _block_to_mdx b i n = EmptyString
  else ends_with_nl (_block_to_mdx b i n) = true.
Proof.
  destruct b; cbv [renders_nothing _block_to_mdx]; cbv zeta;
    try reflexivity; split_ifs; ends_nl.
Qed.

(** X1: whatever the block, the indentation and the number, the fragment
    of each single-block renderer is empty or ends with a newline. *)
Theorem fragments_end_with_newline (b : Block) (indent : Z) (number : option Z) :
  (_block_to_markdown b indent number = EmptyString
   \/ ends_with_nl (_block_to_markdown b indent number) = true)
  /\ (_block_to_mdx b indent number = EmptyString
      \/ ends_with_nl (_block_to_mdx b indent number) = true).
Proof.
  pose proof (markdown_fragment_shape b indent number) as Hmd.
  pose proof (mdx_fragment_shape b indent number) as Hmdx.
  destruct (renders_nothing b); split; auto.
Qed.

(** X2: in both dialects the fragment is empty exactly for the breadcrumb,
    column list, column, table and unsupported blocks; every other block,
    an empty paragraph included, contributes at least a newline. *)
Theorem fragment_empty_iff (b : Block) (indent : Z) (number : option Z) :
  (_block_to_markdown b indent number = EmptyString <-> renders_nothing b = true)
  /\ (_block_to_mdx b indent number = EmptyString <-> renders_nothing b = true).
Proof.
  pose proof (markdown_fragment_shape b indent number) as Hmd.
  pose proof (mdx_fragment_shape b indent number) as Hmdx.
  destruct (renders_nothing b); split; split; intros H; try reflexivity;
    try assumption.
  - rewrite H in Hmd; discriminate.
  - discriminate.
  - rewrite H in Hmdx; discriminate.
  - discriminate.
Qed.

(** X3: the number passed to a single-block renderer matters for numbered
    list items only, and a missing number stands for 1. *)
Theorem number_only_for_numbered_items (b : Block) (indent : Z) (n m : option Z) :
  is_numbered b = false ->
  _block_to_markdown b indent n = _block_to_markdown b indent m
  /\ _block_to_mdx b indent n = _block_to_mdx b indent m
  /\ (forall c,
        _block_to_markdown (NumberedListItemBlock c) indent None
        = _block_to_markdown (NumberedListItemBlock c) indent (Some 1)
        /\ _block_to_mdx (NumberedListItemBlock c) indent None
           = _block_to_mdx (NumberedListItemBlock c) indent (Some 1)).
Proof.
  intros H. destruct b; try discriminate H; repeat split; reflexivity.
Qed.

Lemma number_only_for_numbered_items_witness :
  _block_to_markdown DividerBlock 0 (Some 7) = _block_to_markdown DividerBlock 0 None
  /\ _block_to_mdx DividerBlock 0 (Some 7) = _block_to_mdx DividerBlock 0 None.
Proof.
  pose proof (number_only_for_numbered_items DividerBlock 0 (Some 7) None eq_refl) as H.
  exact (conj (proj1 H) (proj1 (proj2 H))).
Defined.

Lemma plain_blocks_agree (b : Block) :
  plain_in_mdx b = true ->
  forall indent number, _block_to_mdx b indent number = _block_to_markdown b indent number.
Proof.
  intros H indent number. destruct b; try discriminate H; try reflexivity; simpl in H.
  - destruct paragraph as [rt c]; destruct c; try discriminate H.
    cbv [_block_to_mdx _block_to_markdown rich_text color value]; cbv zeta.
    destruct (truthy (_rich_text_to_markdown rt)); reflexivity.
  - destruct heading_1 as [rt c t]; destruct c; try discriminate H; reflexivity.
  - destruct heading_2 as [rt c t]; destruct c; try discriminate H; reflexivity.
  - destruct heading_3 as [rt c t]; destruct c; try discriminate H; reflexivity.
  - destruct bulleted_list_item as [rt c]; destruct c; try discriminate H; reflexivity.
  - destruct numbered_list_item as [rt c]; destruct c; try discriminate H; reflexivity.
  - destruct to_do as [rt c t]; destruct c; try discriminate H; reflexivity.
  - destruct quote as [rt c]; destruct c; try discriminate H; reflexivity.
Qed.


(** X4: where MDX has no component for a block and the block carries the
    default color (paragraphs, headings, list items, to-dos and quotes of
    the default color; code, dividers, table rows and the blocks that
    render nothing), the MDX fragment is the Markdown fragment. *)
Theorem mdx_agrees_with_markdown (b : Block) (indent : Z) (number : option Z) :
  plain_in_mdx b = true ->
  _block_to_mdx b indent number = _block_to_markdown b indent number.
Proof.
  intros H. now apply plain_blocks_agree.
Qed.

Lemma mdx_agrees_with_markdown_witness :
  _block_to_mdx (item "a") 0 (Some 3) = _block_to_markdown (item "a") 0 (Some 3).
Proof.
  exact (mdx_agrees_with_markdown (item "a") 0 (Some 3) eq_refl).
Defined.

(** X5: a bulleted item, a numbered item and a to-do start with two spaces
    for each level of indentation and are otherwise the fragment of
    level 0; a level below zero counts as zero. *)
Theorem indentation_is_a_prefix (b : Block) (indent : Z) (number : option Z) :
  indent_prefixed b = true ->
  _block_to_markdown b indent number
    = str_mul "  " indent ++ _block_to_markdown b 0 number
  /\ _block_to_mdx b indent number = str_mul "  " indent ++ _block_to_mdx b 0 number
  /\ String.length (str_mul "  " indent) = (2 * Z.to_nat indent)%nat.
Proof.
  intros H. split; [|split].
  - destruct b; try discriminate H; reflexivity.
  - destruct b; try discriminate H; reflexivity.
  - unfold str_mul. induction (Z.to_nat indent) as [|k IH]; [reflexivity|].
    simpl. rewrite IH. lia.
Qed.

Lemma indentation_is_a_prefix_witness :
  _block_to_markdown (item "a") 2 (Some 1) = "    " ++ _block_to_markdown (item "a") 0 (Some 1).
Proof.
  exact (proj1 (indentation_is_a_prefix (item "a") 2 (Some 1) eq_refl)).
Defined.

(** ** Documents *)

Section DocumentShape.

Variable render : Block -> Z -> option Z -> string.

Hypothesis render_shape :
  forall b i n,
    if renders_nothing b then render b i n = EmptyString
    else ends_with_nl (render b i n) = true.

Lemma fragments_shape (blocks : list Block) :
  forall c,
    if forallb renders_nothing blocks
    then join_empty (map (fragment render) (counters_spec c blocks)) = EmptyString
    else ends_with_nl (join_empty (map (fragment render) (counters_spec c blocks))) = true.
Proof.
  induction blocks as [|b blocks IH]; intros c; [reflexivity|].
  cbn [forallb counters_spec].
  assert (Hcons : forall n c',
    if renders_nothing b && forallb renders_nothing blocks
    then join_empty (map (fragment render) ((b, n) :: counters_spec c' blocks)) = EmptyString
    else ends_with_nl
           (join_empty (map (fragment render) ((b, n) :: counters_spec c' blocks))) = true).
  { intros n c'. cbn [map join_empty]. unfold fragment at 1 3; cbn [fst snd].
    pose proof (render_shape b 0 n) as Hb. pose proof (IH c') as Hrest.
    destruct (renders_nothing b); cbn [andb].
    - rewrite Hb. exact Hrest.
    - destruct (forallb renders_nothing blocks).
      + rewrite Hrest, append_empty_r. exact Hb.
      + now apply ends_with_nl_app. }
  destruct (is_numbered b); apply Hcons.
Qed.

Lemma assemble_shape (blocks : list Block) :
  if forallb renders_nothing blocks then assemble render blocks = EmptyString
  else ends_with_nl (assemble render blocks) = true.
Proof.
  rewrite assemble_document_spec. apply fragments_shape.
Qed.

End DocumentShape.

(** X6: a rendered document is empty exactly when every block is one that
    renders nothing, and otherwise ends with a newline, in both dialects. *)
Theorem document_ends_with_newline (self : PageBlocksResponse) :
  (if forallb renders_nothing (results self)
   then to_markdown self = EmptyString
   else ends_with_nl (to_markdown self) = true)
  /\ (if forallb renders_nothing (results self)
      then to_mdx self = EmptyString
      else ends_with_nl (to_mdx self) = true).
Proof.
  split.
  - apply assemble_shape, markdown_fragment_shape.
  - apply assemble_shape, mdx_fragment_shape.
Qed.

Lemma assemble_app (render : Block -> Z -> option Z -> string) (a b : list Block) :
  ends_numbered a && starts_numbered b = false ->
  assemble render (a ++ b) = assemble render a ++ assemble render b.
Proof.
  intros H. rewrite !assemble_document_spec. unfold document_spec.
  rewrite counters_spec_app, map_app, join_empty_app.
  destruct (ends_numbered a) eqn:Ha.
  - simpl in H. now rewrite (counters_spec_starts b _ H).
  - now rewrite (counter_after_ends a Ha).
Qed.

(** X7: rendering distributes over the concatenation of two block
    sequences, in both dialects, unless the cut falls inside a run of
    numbered list items (the first sequence ends with one and the second
    starts with one). *)
Theorem documents_concatenate (a b : list Block) :
  ends_numbered a && starts_numbered b = false ->
  to_markdown (response_of (a ++ b))
    = to_markdown (response_of a) ++ to_markdown (response_of b)
  /\ to_mdx (response_of (a ++ b)) = to_mdx (response_of a) ++ to_mdx (response_of b).
Proof.
  intros H. unfold to_markdown, to_mdx, response_of; cbn [results].
  split; now apply assemble_app.
Qed.

Lemma documents_concatenate_witness :
  to_markdown (response_of ([item "a"; DividerBlock] ++ [item "b"]))
  = to_markdown (response_of [item "a"; DividerBlock]) ++ to_markdown (response_of [item "b"]).
Proof.
  exact (proj1 (documents_concatenate [item "a"; DividerBlock] [item "b"] eq_refl)).
Defined.

(** ** The formatter on lists of spans *)

(** X8: the formatter and the plain-text extraction both distribute over
    the concatenation of span lists: spans are rendered one by one, with
    nothing put between them. *)
Theorem rich_text_concatenates (l1 l2 : list RichText) :
  _rich_text_to_markdown (l1 ++ l2)
    = _rich_text_to_markdown l1 ++ _rich_text_to_markdown l2
  /\ _extract_plain_text (l1 ++ l2) = _extract_plain_text l1 ++ _extract_plain_text l2.
Proof.
  unfold _rich_text_to_markdown, _extract_plain_text.
  now rewrite !map_app, !join_empty_app.
Qed.

Lemma format_span_unformatted (rt : RichText) :
  unformatted rt = true -> format_span rt = plain_text rt.
Proof.
  destruct rt as [[b i s u c col] t h]. unfold unformatted, format_span; simpl.
  destruct c, b, i, s; simpl; try discriminate; destruct h as [h|]; [|reflexivity].
  destruct (truthy h); [discriminate | reflexivity].
Qed.

(** X9: on spans that carry no code, bold, italic or strikethrough
    annotation and no link target, the formatter returns the plain text:
    no marker is added and no character is escaped. *)
Theorem unformatted_text_is_plain (rich_text_list : list RichText) :
  forallb unformatted rich_text_list = true ->
  _rich_text_to_markdown rich_text_list = _extract_plain_text rich_text_list.
Proof.
  unfold _rich_text_to_markdown, _extract_plain_text.
  induction rich_text_list as [|rt l IH]; intros H; [reflexivity|].
  simpl in H. apply andb_true_iff in H as [Hrt Hl].
  simpl. now rewrite (format_span_unformatted rt Hrt), (IH Hl).
Qed.

Lemma unformatted_text_is_plain_witness :
  _rich_text_to_markdown [plain "a*b"; mkRichText default_annotations "_c_" (Some EmptyString)]
  = "a*b_c_".
Proof.
  exact (unformatted_text_is_plain
           [plain "a*b"; mkRichText default_annotations "_c_" (Some EmptyString)] eq_refl).
Defined.

(** ** Plain text *)

Lemma join_cons_nonempty (sep x : string) (l : list string) :
  l <> [] -> join sep (x :: l) = x ++ sep ++ join sep l.
Proof.
  destruct l; [congruence | reflexivity].
Qed.

Lemma join_app (sep : string) (l1 l2 : list string) :
  l1 <> [] -> l2 <> [] ->
  join sep (l1 ++ l2)%list = join sep l1 ++ sep ++ join sep l2.
Proof.
  intros H1 H2; induction l1 as [|x l1 IH]; [congruence|].
  destruct l1 as [|y l1].
  - simpl app. now rewrite join_cons_nonempty.
  - change ((x :: y :: l1) ++ l2)%list with (x :: ((y :: l1) ++ l2))%list.
    rewrite join_cons_nonempty by discriminate.
    rewrite IH by discriminate.
    rewrite (join_cons_nonempty sep x (y :: l1)) by discriminate.
    now rewrite !append_assoc.
Qed.

Lemma truthy_app (a b : string) : truthy a = true -> truthy (a ++ b) = true.
Proof.
  destruct a; [discriminate | reflexivity].
Qed.

Lemma truthy_join_texts (blocks : list Block) :
  truthy (join nl (block_texts blocks)) = truthy_list (block_texts blocks).
Proof.
  unfold block_texts.
  induction (map _get_block_text blocks) as [|t l IH]; [reflexivity|].
  simpl. destruct (truthy t) eqn:Ht; [|exact IH].
  destruct (filter truthy l) as [|y l'].
  - simpl. exact Ht.
  - rewrite join_cons_nonempty by discriminate. simpl. now apply truthy_app.
Qed.

Lemma block_texts_app (a b : list Block) :
  block_texts (a ++ b) = (block_texts a ++ block_texts b)%list.
Proof.
  unfold block_texts. now rewrite map_app, filter_app.
Qed.

(** X10: the plain text of two block sequences in a row is the plain text
    of each, with one newline between them when both are non-empty and
    nothing between them otherwise. *)
Theorem get_plain_text_concatenates (a b : list Block) :
  get_plain_text (response_of (a ++ b))
  = if truthy (get_plain_text (response_of a)) && truthy (get_plain_text (response_of b))
    then get_plain_text (response_of a) ++ nl ++ get_plain_text (response_of b)
    else get_plain_text (response_of a) ++ get_plain_text (response_of b).
Proof.
  unfold get_plain_text, response_of; cbn [results].
  rewrite !truthy_join_texts, block_texts_app.
  destruct (block_texts a) as [|x la] eqn:Ha.
  - reflexivity.
  - destruct (block_texts b) as [|y lb] eqn:Hb.
    + cbn [truthy_list andb]. now rewrite app_nil_r, append_empty_r.
    + cbn [truthy_list andb]. apply join_app; discriminate.
Qed.

(** X11: a block without text of its own (a divider, an image, a table
    row, a block with empty rich text, ...) leaves no trace in the plain
    text of the document, not even an empty line. *)
Theorem get_plain_text_skips_empty (a c : list Block) (b : Block) :
  _get_block_text b = EmptyString ->
  get_plain_text (response_of (a ++ b :: c)) = get_plain_text (response_of (a ++ c)).
Proof.
  intros H. unfold get_plain_text, response_of; cbn [results].
  rewrite !block_texts_app. unfold block_texts at 2.
  cbn [map filter]. rewrite H. reflexivity.
Qed.

Lemma get_plain_text_skips_empty_witness :
  get_plain_text (response_of ([item "a"] ++ DividerBlock :: [item "b"]))
  = get_plain_text (response_of ([item "a"] ++ [item "b"])).
Proof.
  exact (get_plain_text_skips_empty [item "a"] [item "b"] DividerBlock eq_refl).
Defined.

(** X12: when no block text holds a newline and some block has text, the
    lines of the plain text are the non-empty block texts, in order. *)
Theorem get_plain_text_lines (self : PageBlocksResponse) :
  Forall (fun t => mem_char nl_char t = false) (block_texts (results self)) ->
  block_texts (results self) <> [] ->
  split_nl (get_plain_text self) = block_texts (results self).
Proof.
  intros Hall Hne. unfold get_plain_text. now apply split_nl_join.
Qed.

Lemma get_plain_text_lines_witness :
  split_nl (get_plain_text (response_of sample_document)) = ["Hello"; "a"; "b"; "c"].
Proof.
  refine (get_plain_text_lines (response_of sample_document) _ _).
  - repeat constructor.
  - discriminate.
Defined.

(** ** More on the paginated fetches *)

Section FetchEdges.

Variable World : Type.
Variable http_get :
  string -> list (string * string) -> World -> option PageBlocksResponse * World.
Variable page_id : string.

Lemma fetch_loop_fails n w cursor w' :
  fails_after World http_get page_id n w cursor w' ->
  forall fuel first_response all_results,
  (n < fuel)%nat ->
  fetch_loop World http_get fuel page_id cursor first_response all_results w
  = (Raised, w').
Proof.
  induction 1 as [w cursor w' Hget | n w cursor p w1 w' Hget Hmore Hrest IH];
    intros fuel first_response all_results Hfuel.
  - destruct fuel as [|fuel]; [lia|].
    cbn [fetch_loop]. now rewrite Hget.
  - destruct fuel as [|fuel]; [lia|].
    cbn [fetch_loop]. rewrite Hget, Hmore. cbn [negb].
    apply IH. lia.
Qed.

(** X13: if, after any number of pages that announce more, a request
    raises, [fetch_all_blocks] raises too: the pages already received are
    not returned. *)
Theorem fetch_all_blocks_raises n w w' :
  fails_after World http_get page_id n w None w' ->
  forall fuel, (n < fuel)%nat ->
  fetch_all_blocks World http_get fuel page_id w = (Raised, w').
Proof.
  intros H fuel Hfuel. unfold fetch_all_blocks.
  now rewrite (fetch_loop_fails n w None w' H fuel None [] Hfuel).
Qed.

Hypothesis always_more :
  forall u params w, exists p w',
    http_get u params w = (Some p, w') /\ has_more p = true.

Lemma fetch_loop_endless (fuel : nat) :
  forall cursor first_response all_results w,
  fst (fetch_loop World http_get fuel page_id cursor first_response all_results w)
  = OutOfFuel.
Proof.
  induction fuel as [|fuel IH]; intros cursor first_response all_results w.
  - reflexivity.
  - cbn [fetch_loop]. unfold get_block_children.
    match goal with
    | |- context [http_get ?u ?ps w] =>
        destruct (always_more u ps w) as (p & w' & Hget & Hmore); rewrite Hget
    end.
    rewrite Hmore. cbn [negb]. apply IH.
Qed.

(** X14: against a service whose every page announces more,
    [fetch_all_blocks] never returns, however many requests it is allowed:
    the loop has no bound of its own. *)
Theorem fetch_all_blocks_endless (fuel : nat) (w : World) :
  fst (fetch_all_blocks World http_get fuel page_id w) = OutOfFuel.
Proof.
  unfold fetch_all_blocks.
  pose proof (fetch_loop_endless fuel None None [] w) as H.
  destruct (fetch_loop World http_get fuel page_id None None [] w) as [[[f a]| |] w'];
    simpl in H; try discriminate H. reflexivity.
Qed.

End FetchEdges.

Lemma scripted_failure :
  fails_after (list PageBlocksResponse) scripted_get "page" 1 [page_one] None [].
Proof.
  apply fails_later with (p := page_one) (w1 := []); [reflexivity | reflexivity |].
  apply fails_now. reflexivity.
Defined.

Lemma fetch_all_blocks_raises_witness :
  fetch_all_blocks (list PageBlocksResponse) scripted_get 2 "page" [page_one]
  = (Raised, []).
Proof.
  exact (fetch_all_blocks_raises (list PageBlocksResponse) scripted_get "page"
           1%nat [page_one] [] scripted_failure 2%nat (le_n 2)).
Defined.

Lemma endless_get_always_more :
  forall u params w, exists p w',
    endless_get u params w = (Some p, w') /\ has_more p = true.
Proof.
  intros u params w. eexists. eexists. split; reflexivity.
Defined.

Lemma fetch_all_blocks_endless_witness :
  fst (fetch_all_blocks unit endless_get 50 "page" tt) = OutOfFuel.
Proof.
  exact (fetch_all_blocks_endless unit endless_get "page" endless_get_always_more 50%nat tt).
Defined.

Section FetchPagesProperties.

Variable World : Type.
Variable http_post :
  string -> list (string * string) -> World -> option BlogDataSourceResponse * World.
Variable data_source_id : string.

Lemma fetch_pages_loop_answers w cursor answers w' :
  answers_from World http_post data_source_id w cursor answers w' ->
  forall fuel all_pages,
  (length answers <= fuel)%nat ->
  fetch_pages_loop World http_post fuel data_source_id cursor all_pages w
  = (Returned (all_pages ++ concat (map ds_results answers))%list, w').
Proof.
  induction 1 as [w cursor p w' Hget Hmore | w cursor p w1 ps w' Hget Hmore Hrest IH];
    intros fuel all_pages Hfuel.
  - destruct fuel as [|fuel]; [simpl in Hfuel; lia|].
    cbn [fetch_pages_loop]. rewrite Hget, Hmore. cbn [negb map concat].
    now rewrite app_nil_r.
  - destruct fuel as [|fuel]; [simpl in Hfuel; lia|].
    cbn [fetch_pages_loop]. rewrite Hget, Hmore. cbn [negb].
    rewrite IH by (simpl in Hfuel; lia).
    cbn [map concat]. now rewrite <- app_assoc.
Qed.

(** X15: when every query succeeds and the answers form a finite chain,
    [fetch_all_pages] (and [fetch_datasource_pages], which calls it)
    returns the pages of all answers in request order. *)
Theorem fetch_all_pages_merges w answers w' :
  answers_from World http_post data_source_id w None answers w' ->
  forall fuel, (length answers <= fuel)%nat ->
  fetch_all_pages World http_post fuel data_source_id w
    = (Returned (concat (map ds_results answers)), w')
  /\ fetch_datasource_pages World http_post fuel data_source_id w
     = (Returned (concat (map ds_results answers)), w').
Proof.
  intros H fuel Hfuel. unfold fetch_datasource_pages, fetch_all_pages.
  rewrite (fetch_pages_loop_answers w None answers w' H fuel [] Hfuel).
  split; reflexivity.
Qed.

End FetchPagesProperties.

Lemma scripted_answers :
  answers_from (list BlogDataSourceResponse) scripted_post "source"
               [answer_one; answer_two] None [answer_one; answer_two] [].
Proof.
  apply answers_more with (w1 := [answer_two]); [reflexivity | reflexivity |].
  apply answers_last; reflexivity.
Defined.

Lemma fetch_all_pages_merges_witness :
  fetch_all_pages (list BlogDataSourceResponse) scripted_post 2 "source"
                  [answer_one; answer_two]
  = (Returned [sample_page "https://www.notion.so/Post-1a2b";
               sample_page "https://www.notion.so/Other-3c4d"], []).
Proof.
  exact (proj1 (fetch_all_pages_merges (list BlogDataSourceResponse) scripted_post
                  "source" [answer_one; answer_two] [answer_one; answer_two] []
                  scripted_answers 2%nat (le_n 2))).
Defined.

(** ** File names *)

Lemma string_ind2 (P : string -> Prop) :
  P EmptyString ->
  (forall c, P (String c EmptyString)) ->
  (forall c c2 s, P s -> P (String c2 s) -> P (String c (String c2 s))) ->
  forall s, P s.
Proof.
  intros H0 H1 H2 s.
  assert (H : P s /\ forall c, P (String c s)).
  { induction s as [|a s [IHs IHc]].
    - split; [exact H0 | exact H1].
    - split; [apply IHc | intros c; apply H2; [exact IHs | apply IHc]]. }
  exact (proj1 H).
Qed.

Lemma is_dash_eq (c : ascii) : is_dash c = true -> c = dash.
Proof.
  unfold is_dash. apply Ascii.eqb_eq.
Qed.

Lemma slug_char_of_kept (x : ascii) :
  let c := (if Ascii.eqb (lower_char x) space then dash else lower_char x) in
  keep_char c = true -> is_slug_char c = true.
Proof.
  destruct x as [[] [] [] [] [] [] [] []]; vm_compute; exact (fun H => H).
Qed.

Lemma slug_char_fixed (c : ascii) :
  is_slug_char c = true ->
  lower_char c = c
  /\ (if Ascii.eqb c space then dash else c) = c
  /\ keep_char c = true.
Proof.
  destruct c as [[] [] [] [] [] [] [] []]; vm_compute; intros H;
    try discriminate H; repeat split.
Qed.

Lemma filtered_is_slug (name : string) :
  all_chars is_slug_char (filter_chars keep_char (spaces_to_dashes (lower name))) = true.
Proof.
  induction name as [|x name IH]; [reflexivity|].
  unfold lower, spaces_to_dashes in *. cbn [map_chars filter_chars].
  destruct (keep_char _) eqn:K; [|exact IH].
  cbn [all_chars]. now rewrite (slug_char_of_kept x K), IH.
Qed.

Lemma replace_dd_all_chars (p : ascii -> bool) (s : string) :
  all_chars p s = true -> all_chars p (replace_dd s) = true.
Proof.
  induction s as [|c|c c2 s IHs IHc] using string_ind2; intros H.
  - reflexivity.
  - exact H.
  - cbn [replace_dd]. cbn [all_chars] in H.
    apply andb_true_iff in H as [Hc H2].
    destruct (is_dash c && is_dash c2) eqn:D.
    + apply andb_true_iff in D as [Dc _]. apply is_dash_eq in Dc. subst c.
      apply andb_true_iff in H2 as [_ Hs].
      cbn [all_chars]. now rewrite Hc, IHs.
    + change (all_chars p (String c (replace_dd (String c2 s))) = true).
      cbn [all_chars]. rewrite Hc. now apply IHc.
Qed.

Lemma replace_dd_cons2 (c c2 : ascii) (s : string) :
  replace_dd (String c (String c2 s))
  = if is_dash c && is_dash c2 then String dash (replace_dd s)
    else String c (replace_dd (String c2 s)).
Proof. reflexivity. Qed.

Lemma replace_dd_length (s : string) :
  (String.length (replace_dd s) <= String.length s)%nat
  /\ (contains_dd s = true -> (String.length (replace_dd s) < String.length s)%nat).
Proof.
  induction s as [|c|c c2 s IHs IHc] using string_ind2.
  - split; [apply le_n | discriminate].
  - split; [apply le_n|]. simpl. rewrite andb_false_r. discriminate.
  - rewrite replace_dd_cons2.
    destruct (is_dash c && is_dash c2) eqn:D.
    + destruct IHs as [IHs _].
      change (String.length (String dash (replace_dd s)))
        with (S (String.length (replace_dd s))).
      change (String.length (String c (String c2 s)))
        with (S (S (String.length s))).
      split; [lia | intros _; lia].
    + change (contains_dd (String c (String c2 s)))
        with ((is_dash c && is_dash c2) || contains_dd (String c2 s)).
      rewrite D. cbn [orb].
      change (String.length (String c (replace_dd (String c2 s))))
        with (S (String.length (replace_dd (String c2 s)))).
      change (String.length (String c (String c2 s)))
        with (S (String.length (String c2 s))).
      destruct IHc as [IHle IHlt]. split; [lia|].
      intros H. specialize (IHlt H). lia.
Qed.

Lemma short_has_no_dd (s : string) :
  (String.length s <= 1)%nat -> contains_dd s = false.
Proof.
  destruct s as [|c [|c2 s]]; simpl; intros H; [reflexivity | | lia].
  now rewrite andb_false_r.
Qed.

Lemma collapse_loop_no_dd (fuel : nat) :
  forall s, (String.length s <= S fuel)%nat -> contains_dd (collapse_loop fuel s) = false.
Proof.
  induction fuel as [|fuel IH]; intros s Hlen.
  - simpl. now apply short_has_no_dd.
  - cbn [collapse_loop]. destruct (contains_dd s) eqn:D; [|exact D].
    apply IH. pose proof (proj2 (replace_dd_length s) D). lia.
Qed.

(** X16: the loop of [sanitize_filename] that replaces double dashes stops
    because no double dash is left, within as many rounds as the string
    has characters: every run of dashes has become a single dash. *)
Theorem collapse_loop_exits (safe : string) :
  contains_dd (collapse_loop (String.length safe) safe) = false
  /\ (forall fuel, (String.length safe <= fuel)%nat ->
        collapse_loop fuel safe = collapse_loop (String.length safe) safe).
Proof.
  split; [apply collapse_loop_no_dd; lia|].
  assert (Hstable : forall extra fuel s,
            contains_dd (collapse_loop fuel s) = false ->
            collapse_loop (extra + fuel) s = collapse_loop fuel s).
  { intros extra fuel; revert extra; induction fuel as [|fuel IH]; intros extra s H.
    - simpl in H. rewrite Nat.add_0_r. destruct extra; simpl; [reflexivity | now rewrite H].
    - rewrite Nat.add_succ_r. cbn [collapse_loop] in *.
      destruct (contains_dd s); [now apply IH | reflexivity]. }
  intros fuel Hfuel.
  replace fuel with ((fuel - String.length safe) + String.length safe)%nat by lia.
  apply Hstable, collapse_loop_no_dd. lia.
Qed.

Lemma collapse_loop_all_chars (p : ascii -> bool) (fuel : nat) :
  forall s, all_chars p s = true -> all_chars p (collapse_loop fuel s) = true.
Proof.
  induction fuel as [|fuel IH]; intros s H; [exact H|].
  cbn [collapse_loop]. destruct (contains_dd s); [|exact H].
  now apply IH, replace_dd_all_chars.
Qed.

Lemma contains_dd_tail (c : ascii) (s : string) :
  contains_dd (String c s) = false -> contains_dd s = false.
Proof.
  simpl. intros H. now apply orb_false_elim in H.
Qed.

Lemma lstrip_dash_props (p : ascii -> bool) (s : string) :
  (all_chars p s = true -> all_chars p (lstrip_dash s) = true)
  /\ (contains_dd s = false -> contains_dd (lstrip_dash s) = false)
  /\ is_dash_opt (first_char (lstrip_dash s)) = false.
Proof.
  induction s as [|c s (IHa & IHd & IHf)]; [repeat split; auto|].
  cbn [lstrip_dash]. destruct (is_dash c) eqn:D.
  - split; [|split].
    + cbn [all_chars]. intros H. apply andb_true_iff in H as [_ H]. now apply IHa.
    + intros H. apply IHd. now apply contains_dd_tail in H.
    + exact IHf.
  - split; [|split]; auto.
Qed.

Lemma rstrip_dash_first (s : string) (a : ascii) (r : string) :
  rstrip_dash s = String a r -> exists t, s = String a t.
Proof.
  destruct s as [|c s]; [discriminate|].
  cbn [rstrip_dash]. destruct (rstrip_dash s).
  - destruct (is_dash c); [discriminate|]. intros H; inversion H; subst. now exists s.
  - intros H; inversion H; subst. now exists s.
Qed.

Lemma rstrip_dash_props (p : ascii -> bool) (s : string) :
  (all_chars p s = true -> all_chars p (rstrip_dash s) = true)
  /\ (contains_dd s = false -> contains_dd (rstrip_dash s) = false)
  /\ is_dash_opt (last_char (rstrip_dash s)) = false
  /\ (is_dash_opt (first_char s) = false ->
      is_dash_opt (first_char (rstrip_dash s)) = false).
Proof.
  induction s as [|c s (IHa & IHd & IHl & IHf)]; [repeat split; auto|].
  cbn [rstrip_dash]. destruct (rstrip_dash s) as [|a r] eqn:R.
  - destruct (is_dash c) eqn:D; [repeat split; auto|].
    split; [|split; [|split]].
    + cbn [all_chars]. intros H. apply andb_true_iff in H as [H _]. now rewrite H.
    + intros _. simpl. now rewrite andb_false_r.
    + simpl. exact D.
    + intros _. simpl. exact D.
  - split; [|split; [|split]].
    + cbn [all_chars]. intros H. apply andb_true_iff in H as [Hc Hs].
      rewrite Hc. now apply IHa.
    + intros H. destruct (rstrip_dash_first s a r R) as [t ->].
      change (contains_dd (String c (String a r)))
        with ((is_dash c && is_dash a) || contains_dd (String a r)).
      change (contains_dd (String c (String a t)))
        with ((is_dash c && is_dash a) || contains_dd (String a t)) in H.
      apply orb_false_elim in H as [H1 H2]. rewrite H1. now apply IHd.
    + exact IHl.
    + intros H. exact H.
Qed.

Lemma sanitize_filename_untitled : sanitize_filename EmptyString = "untitled".
Proof. reflexivity. Qed.

Lemma sanitize_filename_is_clean (name : string) :
  truthy (sanitize_filename name) = true
  /\ all_chars is_slug_char (sanitize_filename name) = true
  /\ contains_dd (sanitize_filename name) = false
  /\ is_dash_opt (first_char (sanitize_filename name)) = false
  /\ is_dash_opt (last_char (sanitize_filename name)) = false.
Proof.
  unfold sanitize_filename.
  set (s3 := filter_chars keep_char (spaces_to_dashes (lower name))).
  set (s4 := collapse_loop (String.length s3) s3).
  cbv zeta.
  assert (H4a : all_chars is_slug_char s4 = true)
    by (apply collapse_loop_all_chars, filtered_is_slug).
  assert (H4d : contains_dd s4 = false) by (apply collapse_loop_no_dd; lia).
  unfold strip_dash.
  destruct (lstrip_dash_props is_slug_char s4) as (La & Ld & Lf).
  destruct (rstrip_dash_props is_slug_char (lstrip_dash s4)) as (Ra & Rd & Rl & Rf).
  destruct (truthy (rstrip_dash (lstrip_dash s4))) eqn:T.
  - repeat split; auto.
  - repeat split; reflexivity.
Qed.

(** X17: for an ASCII name, the result of [sanitize_filename] is never
    empty, is made of lower-case letters, digits, dashes and underscores
    only, holds no double dash, and neither starts nor ends with a dash. *)
Theorem sanitize_filename_clean (name : string) :
  is_ascii name = true ->
  truthy (sanitize_filename name) = true
  /\ all_chars is_slug_char (sanitize_filename name) = true
  /\ contains_dd (sanitize_filename name) = false
  /\ is_dash_opt (first_char (sanitize_filename name)) = false
  /\ is_dash_opt (last_char (sanitize_filename name)) = false.
Proof.
  intros _. apply sanitize_filename_is_clean.
Qed.

Lemma sanitize_filename_clean_witness :
  all_chars is_slug_char (sanitize_filename "Hello  World -- 2024!") = true
  /\ contains_dd (sanitize_filename "Hello  World -- 2024!") = false.
Proof.
  pose proof (sanitize_filename_clean "Hello  World -- 2024!" eq_refl) as H.
  exact (conj (proj1 (proj2 H)) (proj1 (proj2 (proj2 H)))).
Defined.

Lemma map_chars_fixed (f : ascii -> ascii) (p : ascii -> bool) (s : string) :
  (forall c, p c = true -> f c = c) ->
  all_chars p s = true -> map_chars f s = s.
Proof.
  intros Hf; induction s as [|c s IH]; intros H; [reflexivity|].
  cbn [all_chars] in H. apply andb_true_iff in H as [Hc Hs].
  cbn [map_chars]. now rewrite (Hf c Hc), (IH Hs).
Qed.

Lemma filter_chars_fixed (q p : ascii -> bool) (s : string) :
  (forall c, p c = true -> q c = true) ->
  all_chars p s = true -> filter_chars q s = s.
Proof.
  intros Hq; induction s as [|c s IH]; intros H; [reflexivity|].
  cbn [all_chars] in H. apply andb_true_iff in H as [Hc Hs].
  cbn [filter_chars]. now rewrite (Hq c Hc), (IH Hs).
Qed.

Lemma collapse_loop_fixed (fuel : nat) (s : string) :
  contains_dd s = false -> collapse_loop fuel s = s.
Proof.
  intros H; destruct fuel; simpl; [reflexivity | now rewrite H].
Qed.

Lemma lstrip_dash_fixed (s : string) :
  is_dash_opt (first_char s) = false -> lstrip_dash s = s.
Proof.
  destruct s as [|c s]; [reflexivity|]. simpl. now intros ->.
Qed.

Lemma rstrip_dash_fixed (s : string) :
  is_dash_opt (last_char s) = false -> rstrip_dash s = s.
Proof.
  induction s as [|c s IH]; [reflexivity|].
  destruct s as [|c2 s].
  - simpl. now intros ->.
  - intros H. change (last_char (String c (String c2 s)))
      with (last_char (String c2 s)) in H.
    cbn [rstrip_dash] in *. rewrite (IH H). reflexivity.
Qed.

Lemma sanitize_filename_fixed (s : string) :
  truthy s = true ->
  all_chars is_slug_char s = true ->
  contains_dd s = false ->
  is_dash_opt (first_char s) = false ->
  is_dash_opt (last_char s) = false ->
  sanitize_filename s = s.
Proof.
  intros Ht Ha Hd Hf Hl. unfold sanitize_filename, lower, spaces_to_dashes.
  rewrite (map_chars_fixed lower_char is_slug_char s)
    by (auto; intros c Hc; apply (slug_char_fixed c Hc)).
  rewrite (map_chars_fixed _ is_slug_char s)
    by (auto; intros c Hc; apply (slug_char_fixed c Hc)).
  rewrite (filter_chars_fixed keep_char is_slug_char s)
    by (auto; intros c Hc; apply (slug_char_fixed c Hc)).
  cbv zeta. rewrite (collapse_loop_fixed _ s Hd).
  unfold strip_dash. rewrite (lstrip_dash_fixed s Hf), (rstrip_dash_fixed s Hl).
  now rewrite Ht.
Qed.

(** X18: on ASCII names [sanitize_filename] is idempotent: a sanitized
    name is returned as it is. *)
Theorem sanitize_filename_idempotent (name : string) :
  is_ascii name = true ->
  sanitize_filename (sanitize_filename name) = sanitize_filename name.
Proof.
  intros _.
  destruct (sanitize_filename_is_clean name) as (Ht & Ha & Hd & Hf & Hl).
  now apply sanitize_filename_fixed.
Qed.

Lemma sanitize_filename_idempotent_witness :
  sanitize_filename (sanitize_filename "My  Post -- Draft") = "my-post-draft".
Proof.
  exact (sanitize_filename_idempotent "My  Post -- Draft" eq_refl).
Defined.

(** ** Page identifiers *)

Lemma split_on_not_nil (sep : ascii) (s : string) : split_on sep s <> [].
Proof.
  induction s as [|c s IH]; simpl; [discriminate|].
  destruct (Ascii.eqb c sep); [discriminate|].
  destruct (split_on sep s); discriminate.
Qed.

Lemma split_on_pieces (sep : ascii) (s : string) :
  Forall (fun l => mem_char sep l = false) (split_on sep s).
Proof.
  induction s as [|c s IH]; simpl.
  - constructor; [reflexivity | constructor].
  - destruct (Ascii.eqb c sep) eqn:E.
    + constructor; [reflexivity | assumption].
    + destruct (split_on sep s) as [|l ls].
      * constructor; [simpl; now rewrite E | constructor].
      * inversion IH; subst. constructor; [simpl; now rewrite E | assumption].
Qed.

Lemma split_on_join (sep : ascii) (s : string) :
  join (String sep EmptyString) (split_on sep s) = s.
Proof.
  induction s as [|c s IH]; [reflexivity|].
  cbn [split_on]. destruct (Ascii.eqb c sep) eqn:E.
  - apply Ascii.eqb_eq in E. subst c.
    rewrite join_cons_nonempty by apply split_on_not_nil.
    rewrite IH. reflexivity.
  - destruct (split_on sep s) as [|l ls] eqn:S.
    + now destruct (split_on_not_nil sep s).
    + rewrite <- IH. destruct ls; reflexivity.
Qed.

(** X19: the page identifier that [get_notion_page_id] reads off the URL of
    a page holds no dash and is the end of the URL: what comes before it
    is empty (a URL without dash is returned whole) or ends with a dash. *)
Theorem page_id_is_last_segment (self : BlogPage) :
  mem_char dash (get_notion_page_id self) = false
  /\ exists before,
       page_url self = before ++ get_notion_page_id self
       /\ (before = EmptyString \/ exists q, before = q ++ String dash EmptyString).
Proof.
  unfold get_notion_page_id.
  pose proof (split_on_not_nil dash (page_url self)) as Hne.
  pose proof (split_on_pieces dash (page_url self)) as Hall.
  pose proof (split_on_join dash (page_url self)) as Hjoin.
  set (l := split_on dash (page_url self)) in *.
  pose proof (app_removelast_last EmptyString Hne) as Hl.
  split.
  - rewrite Hl in Hall. apply Forall_app in Hall as [_ Hlast].
    now inversion Hlast.
  - rewrite Hl in Hjoin. destruct (removelast l) as [|x r] eqn:R.
    + exists EmptyString. split; [now rewrite <- Hjoin | now left].
    + rewrite join_app in Hjoin by discriminate.
      cbn [join] in Hjoin.
      exists (join (String dash EmptyString) (x :: r) ++ String dash EmptyString).
      split.
      * rewrite <- Hjoin at 1. now rewrite append_assoc.
      * right. now exists (join (String dash EmptyString) (x :: r)).
Qed.

(** ** The two dialects on plain documents *)

Lemma fragments_agree (blocks : list Block) :
  forallb plain_in_mdx blocks = true ->
  forall c,
    map (fragment _block_to_mdx) (counters_spec c blocks)
    = map (fragment _block_to_markdown) (counters_spec c blocks).
Proof.
  induction blocks as [|b blocks IH]; intros H c; [reflexivity|].
  cbn [forallb] in H. apply andb_true_iff in H as [Hb Hrest].
  cbn [counters_spec].
  destruct (is_numbered b); cbn [map]; rewrite (IH Hrest);
    unfold fragment at 1 3; cbn [fst snd];
    now rewrite (plain_blocks_agree b Hb).
Qed.

(** X20: a document made only of blocks for which MDX has no component
    and no color to apply renders to the same text in both dialects. *)
Theorem plain_documents_agree (self : PageBlocksResponse) :
  forallb plain_in_mdx (results self) = true ->
  to_mdx self = to_markdown self.
Proof.
  intros H. unfold to_mdx, to_markdown.
  rewrite !assemble_document_spec. unfold document_spec.
  now rewrite (fragments_agree (results self) H).
Qed.

Lemma plain_documents_agree_witness :
  to_mdx (response_of sample_document) = to_markdown (response_of sample_document).
Proof.
  exact (plain_documents_agree (response_of sample_document) eq_refl).
Defined.
